(** * The resource-meta registry of k9s (internal/dao/registry.go)

    A shallow embedding of the catalog of resource types and of the
    accessor dispatch, followed by the properties of the refresh
    ([LoadResources]), of the filters, of the extension-type pass and of
    the weakly-typed extractor. *)

From Stdlib Require Import Ascii String.
From stdpp Require Import gmap strings list fin_maps sorting.

Local Open Scope string_scope.
Local Open Scope list_scope.

(** ** Go's [strings] helpers, on Rocq strings (ASCII letters only for
    [ToLower]). *)
Module strings.

Definition lowerAscii (c : ascii) : ascii :=
  let n := nat_of_ascii c in
  if (65 <=? n)%nat && (n <=? 90)%nat then ascii_of_nat (n + 32) else c.

Fixpoint ToLower (s : string) : string :=
  match s with
  | EmptyString => EmptyString
  | String c s' => String (lowerAscii c) (ToLower s')
  end.

(** [HasPrefix s p]: [s] starts with [p]. *)
Fixpoint HasPrefix (s p : string) {struct p} : bool :=
  match p, s with
  | EmptyString, _ => true
  | String _ _, EmptyString => false
  | String a p', String b s' => Ascii.eqb a b && HasPrefix s' p'
  end.

(** [Contains s sub]: [sub] occurs somewhere in [s]. *)
Fixpoint Contains (s sub : string) : bool :=
  HasPrefix s sub ||
  match s with
  | EmptyString => false
  | String _ s' => Contains s' sub
  end.

(** [HasSuffix s suf]: [s] ends with [suf]. *)
Fixpoint HasSuffix (s suf : string) : bool :=
  String.eqb s suf ||
  match s with
  | EmptyString => false
  | String _ s' => HasSuffix s' suf
  end.

(** [splitOn sep s]: the pieces of [s] between occurrences of the
    character [sep] (always at least one piece), as [strings.Split]
    with a one-character separator. *)
Fixpoint splitOn (sep : ascii) (s : string) : list string :=
  match s with
  | EmptyString => [EmptyString]
  | String c s' =>
      if Ascii.eqb c sep then EmptyString :: splitOn sep s'
      else match splitOn sep s' with
           | tok :: toks => String c tok :: toks
           | [] => [String c EmptyString]
           end
  end.

End strings.

(** [slices.Contains] on a slice of strings. *)
Module slices.
Definition Contains (l : list string) (x : string) : bool :=
  existsb (String.eqb x) l.
End slices.

(** ** [metav1]: the descriptor of one resource type *)
Module metav1.

Record APIResource := mkAPIResource {
  Name : string;
  SingularName : string;
  Namespaced : bool;
  Group : string;
  Version : string;
  Kind : string;
  Verbs : list string;
  ShortNames : list string;
  Categories : list string
}.

(** The zero value [metav1.APIResource{}]. *)
Definition zero : APIResource := mkAPIResource EmptyString EmptyString false EmptyString EmptyString EmptyString [] [] [].

Definition withName (a : APIResource) (x : string) : APIResource :=
  mkAPIResource x (SingularName a) (Namespaced a) (Group a) (Version a)
                (Kind a) (Verbs a) (ShortNames a) (Categories a).
Definition withSingularName (a : APIResource) (x : string) : APIResource :=
  mkAPIResource (Name a) x (Namespaced a) (Group a) (Version a)
                (Kind a) (Verbs a) (ShortNames a) (Categories a).
Definition withNamespaced (a : APIResource) (x : bool) : APIResource :=
  mkAPIResource (Name a) (SingularName a) x (Group a) (Version a)
                (Kind a) (Verbs a) (ShortNames a) (Categories a).
Definition withGroup (a : APIResource) (x : string) : APIResource :=
  mkAPIResource (Name a) (SingularName a) (Namespaced a) x (Version a)
                (Kind a) (Verbs a) (ShortNames a) (Categories a).
Definition withVersion (a : APIResource) (x : string) : APIResource :=
  mkAPIResource (Name a) (SingularName a) (Namespaced a) (Group a) x
                (Kind a) (Verbs a) (ShortNames a) (Categories a).
Definition withKind (a : APIResource) (x : string) : APIResource :=
  mkAPIResource (Name a) (SingularName a) (Namespaced a) (Group a) (Version a)
                x (Verbs a) (ShortNames a) (Categories a).
Definition withShortNames (a : APIResource) (x : list string) : APIResource :=
  mkAPIResource (Name a) (SingularName a) (Namespaced a) (Group a) (Version a)
                (Kind a) (Verbs a) x (Categories a).
Definition withCategories (a : APIResource) (x : list string) : APIResource :=
  mkAPIResource (Name a) (SingularName a) (Namespaced a) (Group a) (Version a)
                (Kind a) (Verbs a) (ShortNames a) x.

Record APIResourceList := mkAPIResourceList {
  GroupVersion : string;
  APIResources : list APIResource
}.

End metav1.

(** [schema.GroupVersion] *)
Module schema.
Record GroupVersion := mkGroupVersion { Group : string; Version : string }.
End schema.

(** ** The [client] package: resource identifiers *)
Module client.

(** Modelled from the spec: the client package (the GVR type with
    NewGVR, FromGVAndR, NewGVRFromMeta, G, V and NoGVR) is not among the
    sources.  An identifier is the composite key {group, version,
    resource}, case-normalized; equality is exact triple match.  A path
    "g/v/r" names the triple, "v/r" a resource of the core group and a
    bare "r" a tool-internal resource. *)
Record GVR := mkGVR { g : string; v : string; r : string }.

Definition NoGVR : GVR := mkGVR EmptyString EmptyString EmptyString.

Definition NewGVR (path : string) : GVR :=
  match strings.splitOn "/" (strings.ToLower path) with
  | [g0; v0; r0] => mkGVR g0 v0 r0
  | [v0; r0] => mkGVR EmptyString v0 r0
  | [r0] => mkGVR EmptyString EmptyString r0
  | _ => NoGVR
  end.

Definition FromGVAndR (gv res : string) : GVR :=
  NewGVR (if String.eqb gv EmptyString then res else gv +:+ "/" +:+ res).

Definition NewGVRFromMeta (a : metav1.APIResource) : GVR :=
  mkGVR (strings.ToLower (metav1.Group a))
        (strings.ToLower (metav1.Version a))
        (strings.ToLower (metav1.Name a)).

Definition G (x : GVR) : string := g x.
Definition V (x : GVR) : string := v x.

#[global] Instance GVR_eq_dec : EqDecision GVR.
Proof. solve_decision. Defined.

#[global] Instance GVR_countable : Countable GVR.
Proof.
  refine (inj_countable' (fun x => (g x, v x, r x))
                         (fun t => mkGVR t.1.1 t.1.2 t.2) _).
  by intros [].
Defined.

(** Identifiers are enumerated in ascending order: by group, then
    version, then resource. *)
Definition GVR_le (x y : GVR) : Prop :=
  String.leb (g x) (g y) = true /\
  (g x = g y -> String.leb (v x) (v y) = true /\
                (v x = v y -> String.leb (r x) (r y) = true)).

#[global] Instance GVR_le_dec : RelDecision GVR_le.
Proof. intros x y. unfold GVR_le. apply _. Defined.

(** The namespace argument of a listing; [ClusterScope] is the whole
    cluster. *)
Inductive Namespace := ClusterScope | InNamespace (ns : string).

End client.

(** [labels.Selector] *)
Module labels.
Inductive Selector := Everything | Matching (expr : string).
End labels.

(** ** [apiext]: custom resource definitions, as far as the registry reads
    them *)
Module apiext.

Record CustomResourceSubresourceScale := mkScale {
  SpecReplicasPath : string;
  StatusReplicasPath : string
}.

Record CustomResourceSubresources := mkSubresources {
  Status : bool;
  Scale : option CustomResourceSubresourceScale
}.

Record CustomResourceDefinitionVersion := mkVersion {
  Name : string;
  Served : bool;
  Storage : bool;
  Deprecated : bool;
  Subresources : option CustomResourceSubresources
}.

Record CustomResourceDefinitionNames := mkNames {
  Plural : string;
  Singular : string;
  ShortNames : list string;
  Kind : string
}.

Record CustomResourceDefinitionSpec := mkSpec {
  Group : string;
  Names : CustomResourceDefinitionNames;
  Scope : string;
  Versions : list CustomResourceDefinitionVersion
}.

Record CustomResourceDefinition := mkCRD {
  Spec : CustomResourceDefinitionSpec
}.

(** The zero value [apiext.CustomResourceDefinitionVersion{}]. *)
Definition zeroVersion : CustomResourceDefinitionVersion :=
  mkVersion EmptyString false false false None.

End apiext.

(** ** Weakly-typed objects *)

(** A dynamic value ([interface{}]) as the registry inspects it: nil, a
    string, a []string, a []interface{}, a map[string]interface{}, or a
    value of some other type.  A nil map and a nil slice are the empty map
    and the empty list. *)
#[local] Set Warnings "-register-all".
Inductive Value :=
| VNil
| VStr (s : string)
| VStrs (ss : list string)
| VSlice (ii : list Value)
| VMap (m : gmap string Value)
| VOther (typeName : string).
#[local] Set Warnings "register-all".

(** [unstructured.Unstructured] *)
Module unstructured.
Record Unstructured := mkUnstructured { Object : gmap string Value }.
End unstructured.

(** [runtime.Object]: an unstructured object, or an object of some named
    typed kind. *)
Module runtime.
Inductive Object :=
| OfUnstructured (u : unstructured.Unstructured)
| OfTyped (typeName : string).
End runtime.

(** [m[n]] on a map[string]interface{}: the zero value (nil) when the key
    is absent. *)
Definition index (m : gmap string Value) (n : string) : Value :=
  default VNil (m !! n).

(** ** Errors *)
Inductive Error :=
| ErrUpstream (msg : string)
| ErrNoResourceMeta (gvr : client.GVR)
| ErrExpectedUnstructured (typeName : string)
| ErrExtractSlice (n : string) (m : gmap string Value)
| ErrNoNameKey (n : string)
| ErrUnknownFieldType (o : Value) (n : string)
| ErrExtractStr (n : string)
| ErrExtractField (n : string).

(** ** The collaborators: connection, discovery and factory *)

Record Discovery := mkDiscovery {
  ServerPreferredResources : list metav1.APIResourceList * option Error
}.

Record Connection := mkConnection {
  ConnectionOK : bool;
  CachedDiscovery : Discovery + Error
}.

Record Factory := mkFactory {
  Client : option Connection;
  List : string -> client.Namespace -> bool -> labels.Selector ->
         list unstructured.Unstructured * option Error
}.

(** ** The registry *)

Definition crdCat := "crd".
Definition k9sCat := "k9s".
Definition helmCat := "helm".
Definition scaleCat := "scale".
Definition crdGVR := "apiextensions.k8s.io/v1/customresourcedefinitions".

Definition stdGroups : gset string :=
  list_to_set
    [ "apps/v1"; "autoscaling/v1"; "autoscaling/v2"; "autoscaling/v2beta1";
      "autoscaling/v2beta2"; "batch/v1"; "batch/v1beta1"; "extensions/v1beta1";
      "policy/v1beta1"; "policy/v1"; "v1" ].

(** [sets.Set.Has] *)
Definition Has `{Countable A} (s : gset A) (x : A) : bool := bool_decide (x ∈ s).

(** The catalog: [ResourceMetas], a map from identifier to descriptor.
    [Meta] guards it with a lock that serialises the calls; each operation
    is here a function of the store it finds. *)
Abbreviation ResourceMetas := (gmap client.GVR metav1.APIResource).

(** [clear] ranges over the keys of the map and deletes each of them from
    the map itself. *)
Definition clear (m : ResourceMetas) : ResourceMetas :=
  foldr (fun k acc => delete k acc) m (map_to_list m).*1.

(** *** Accessor dispatch *)

(** Modelled from the spec: the accessor implementations and their Init
    methods are not among the sources.  An accessor is a prototype of one
    of the implementations; Init stores the owning factory and the
    identifier in it, and a fresh prototype holds neither. *)
Module proto.
Inductive t :=
| Workload | Context | Container | ImageScan | ScreenDump | Benchmark
| PortForward | Dir | Service | Pod | Node | Namespace | ConfigMap | Secret
| Deployment | DaemonSet | StatefulSet | ReplicaSet | CronJob | Job
| HelmChart | HelmHistory | CustomResourceDefinition | Scaler.
End proto.

Record Accessor := mkAccessor {
  impl : proto.t;
  factory : option Factory;
  gvr : option client.GVR
}.

Definition new (p : proto.t) : Accessor := mkAccessor p None None.

Definition Init (a : Accessor) (f : Factory) (id : client.GVR) : Accessor :=
  mkAccessor (impl a) (Some f) (Some id).

(** The map literal of [AccessorFor], entries in source order. *)
Definition accessorEntries : list (client.GVR * Accessor) :=
  [ (client.NewGVR "workloads", new proto.Workload);
    (client.NewGVR "contexts", new proto.Context);
    (client.NewGVR "containers", new proto.Container);
    (client.NewGVR "scans", new proto.ImageScan);
    (client.NewGVR "screendumps", new proto.ScreenDump);
    (client.NewGVR "benchmarks", new proto.Benchmark);
    (client.NewGVR "portforwards", new proto.PortForward);
    (client.NewGVR "dir", new proto.Dir);
    (client.NewGVR "v1/services", new proto.Service);
    (client.NewGVR "v1/pods", new proto.Pod);
    (client.NewGVR "v1/nodes", new proto.Node);
    (client.NewGVR "v1/namespaces", new proto.Namespace);
    (client.NewGVR "v1/configmaps", new proto.ConfigMap);
    (client.NewGVR "v1/secrets", new proto.Secret);
    (client.NewGVR "apps/v1/deployments", new proto.Deployment);
    (client.NewGVR "apps/v1/daemonsets", new proto.DaemonSet);
    (client.NewGVR "apps/v1/statefulsets", new proto.StatefulSet);
    (client.NewGVR "apps/v1/replicasets", new proto.ReplicaSet);
    (client.NewGVR "batch/v1/cronjobs", new proto.CronJob);
    (client.NewGVR "batch/v1beta1/cronjobs", new proto.CronJob);
    (client.NewGVR "batch/v1/jobs", new proto.Job);
    (client.NewGVR "helm", new proto.HelmChart);
    (client.NewGVR "helm-history", new proto.HelmHistory);
    (client.NewGVR "apiextensions.k8s.io/v1/customresourcedefinitions",
     new proto.CustomResourceDefinition) ].

Definition Accessors : gmap client.GVR Accessor :=
  foldl (fun m kv => <[kv.1 := kv.2]> m) ∅ accessorEntries.

(** [AccessorFor]: the table entry, or a new [Scaler] on a miss, after
    [Init]; the error is always nil. *)
Definition AccessorFor (f : Factory) (id : client.GVR) : Accessor * option Error :=
  let m := Accessors in
  let r := match m !! id with
           | Some r => r
           | None => new proto.Scaler
           end in
  (Init r f id, None).

(** *** Reading the catalog *)

Definition RegisterMeta (id : string) (res : metav1.APIResource)
    (m : ResourceMetas) : ResourceMetas :=
  <[client.NewGVR id := res]> m.

Definition AllGVRs (m : ResourceMetas) : list client.GVR :=
  merge_sort client.GVR_le (map_to_list m).*1.

(** The scan of [GVK2GVR] over the entries in the order the range yields
    them. *)
Fixpoint GVK2GVRIn (entries : list (client.GVR * metav1.APIResource))
    (gv : schema.GroupVersion) (kind : string) : client.GVR * bool * bool :=
  match entries with
  | [] => (client.NoGVR, false, false)
  | (id, meta) :: rest =>
      if String.eqb (schema.Group gv) (metav1.Group meta)
         && String.eqb (schema.Version gv) (metav1.Version meta)
         && String.eqb kind (metav1.Kind meta)
      then (id, metav1.Namespaced meta, true)
      else GVK2GVRIn rest gv kind
  end.

(** Go leaves the order of a range over a map unspecified: [GVK2GVR] is
    the scan over the entries in the order of [map_to_list]; any other
    order is a permutation of it. *)
Definition GVK2GVR (m : ResourceMetas) (gv : schema.GroupVersion)
    (kind : string) : client.GVR * bool * bool :=
  GVK2GVRIn (map_to_list m) gv kind.

Definition MetaFor (m : ResourceMetas) (id : client.GVR)
    : metav1.APIResource * option Error :=
  match m !! id with
  | Some meta => (meta, None)
  | None => (metav1.zero, Some (ErrNoResourceMeta id))
  end.

Definition IsCRD (r : metav1.APIResource) : bool :=
  slices.Contains (metav1.Categories r) crdCat.

Definition IsK8sMeta (m : metav1.APIResource) : bool :=
  negb (existsb (fun category => String.eqb category k9sCat
                                 || String.eqb category helmCat)
                (metav1.Categories m)).

Definition IsK9sMeta (m : metav1.APIResource) : bool :=
  slices.Contains (metav1.Categories m) k9sCat.

Definition IsScalable (m : metav1.APIResource) : bool :=
  slices.Contains (metav1.Categories m) scaleCat.

(** *** Synthetic registration *)

(** A descriptor literal with the fields the synthetic tables set; the
    others keep their zero value. *)
Definition synthetic (name kind singular : string) (namespaced : bool)
    (shortNames verbs categories : list string) : metav1.APIResource :=
  metav1.mkAPIResource name singular namespaced EmptyString EmptyString kind verbs shortNames
                       categories.

Definition loadK9s (m : ResourceMetas) : ResourceMetas :=
  let m := <[client.NewGVR "workloads" :=
             synthetic "workloads" "Workload" "workload" true ["wk"] [] [k9sCat]]> m in
  let m := <[client.NewGVR "pulses" :=
             synthetic "pulses" "Pulse" "pulses" false ["hz"; "pu"] [] [k9sCat]]> m in
  let m := <[client.NewGVR "dir" :=
             synthetic "dir" "Dir" "dir" false [] [] [k9sCat]]> m in
  let m := <[client.NewGVR "xrays" :=
             synthetic "xray" "XRays" "xray" false [] [] [k9sCat]]> m in
  let m := <[client.NewGVR "references" :=
             synthetic "references" "References" "reference" false [] [] [k9sCat]]> m in
  let m := <[client.NewGVR "aliases" :=
             synthetic "aliases" "Aliases" "alias" false [] [] [k9sCat]]> m in
  let m := <[client.NewGVR "contexts" :=
             synthetic "contexts" "Contexts" "context" false ["ctx"] [] [k9sCat]]> m in
  let m := <[client.NewGVR "screendumps" :=
             synthetic "screendumps" "ScreenDumps" "screendump" false ["sd"]
                       ["delete"] [k9sCat]]> m in
  let m := <[client.NewGVR "benchmarks" :=
             synthetic "benchmarks" "Benchmarks" "benchmark" false ["be"]
                       ["delete"] [k9sCat]]> m in
  let m := <[client.NewGVR "portforwards" :=
             synthetic "portforwards" "PortForwards" "portforward" true ["pf"]
                       ["delete"] [k9sCat]]> m in
  let m := <[client.NewGVR "containers" :=
             synthetic "containers" "Containers" "container" false [] [] [k9sCat]]> m in
  let m := <[client.NewGVR "scans" :=
             synthetic "scans" "Scans" "scan" false [] [] [k9sCat]]> m in
  m.

Definition loadHelm (m : ResourceMetas) : ResourceMetas :=
  let m := <[client.NewGVR "helm" :=
             synthetic "helm" "Helm" EmptyString true [] ["delete"] [helmCat]]> m in
  let m := <[client.NewGVR "helm-history" :=
             synthetic "history" "History" EmptyString true [] ["delete"] [helmCat]]> m in
  m.

Definition loadRBAC (m : ResourceMetas) : ResourceMetas :=
  let m := <[client.NewGVR "rbac" :=
             synthetic "rbacs" "Rules" EmptyString false [] [] [k9sCat]]> m in
  let m := <[client.NewGVR "policy" :=
             synthetic "policies" "Rules" EmptyString true [] [] [k9sCat]]> m in
  let m := <[client.NewGVR "users" :=
             synthetic "users" "User" EmptyString false [] [] [k9sCat]]> m in
  let m := <[client.NewGVR "groups" :=
             synthetic "groups" "Group" EmptyString false [] [] [k9sCat]]> m in
  m.

Definition loadNonResource (m : ResourceMetas) : ResourceMetas :=
  loadHelm (loadRBAC (loadK9s m)).

(** *** Filters *)

Definition isStandardGroup (gv : string) : bool :=
  Has stdGroups gv || strings.Contains gv ".k8s.io".

Definition deprecatedGVRs : gset client.GVR :=
  list_to_set [ client.NewGVR "extensions/v1beta1/ingresses" ].

Definition isDeprecated (id : client.GVR) : bool := Has deprecatedGVRs id.

(** *** Live discovery *)

(** [f.Client() == nil || !f.Client().ConnectionOK()], negated. *)
Definition connected (f : Factory) : bool :=
  match Client f with
  | None => false
  | Some c => ConnectionOK c
  end.

(** The body of the inner loop of [loadPreferred], for one resource [res]
    of the group-version [gv]. *)
Definition loadPreferredResource (gv : string) (m : ResourceMetas)
    (res : metav1.APIResource) : ResourceMetas :=
  let id := client.FromGVAndR gv (metav1.Name res) in
  if isDeprecated id then m
  else
    let res := metav1.withVersion (metav1.withGroup res (client.G id)) (client.V id) in
    let res := if String.eqb (metav1.SingularName res) EmptyString
               then metav1.withSingularName res (strings.ToLower (metav1.Kind res))
               else res in
    let res := if negb (isStandardGroup gv)
               then metav1.withCategories res (metav1.Categories res ++ [crdCat])
               else res in
    <[id := res]> m.

(** The outer loop body: every resource of one list. *)
Definition loadPreferredList (m : ResourceMetas) (rl : metav1.APIResourceList)
    : ResourceMetas :=
  foldl (loadPreferredResource (metav1.GroupVersion rl)) m (metav1.APIResources rl).

Definition loadPreferred (f : Factory) (m : ResourceMetas)
    : ResourceMetas * option Error :=
  match Client f with
  | None => (m, None)
  | Some c =>
      if negb (ConnectionOK c) then (m, None)
      else match CachedDiscovery c with
           | inr err => (m, Some err)
           | inl dial =>
               let '(rr, _) := ServerPreferredResources dial in
               (foldl loadPreferredList m rr, None)
           end
  end.

(** *** Extension-type augmentation *)

(** The loop of [newGVRFromCRD] over the declared versions, in order: the
    first one that is served and not deprecated gives the identifier. *)
Fixpoint firstServed (crd : apiext.CustomResourceDefinition)
    (versions : list apiext.CustomResourceDefinitionVersion)
    : client.GVR * apiext.CustomResourceDefinitionVersion * bool :=
  match versions with
  | [] => (client.mkGVR EmptyString EmptyString EmptyString, apiext.zeroVersion, false)
  | ver :: rest =>
      if apiext.Served ver && negb (apiext.Deprecated ver)
      then (client.NewGVRFromMeta
              (metav1.mkAPIResource
                 (apiext.Plural (apiext.Names (apiext.Spec crd))) EmptyString false
                 (apiext.Group (apiext.Spec crd)) (apiext.Name ver)
                 (apiext.Kind (apiext.Names (apiext.Spec crd))) [] [] []),
            ver, true)
      else firstServed crd rest
  end.

(** [newGVRFromCRD]: the loop over [crd.Spec.Versions]. *)
Definition newGVRFromCRD (crd : apiext.CustomResourceDefinition)
    : client.GVR * apiext.CustomResourceDefinitionVersion * bool :=
  firstServed crd (apiext.Versions (apiext.Spec crd)).

(** [version.Subresources != nil && version.Subresources.Scale != nil] *)
Definition declaresScale (ver : apiext.CustomResourceDefinitionVersion) : bool :=
  match apiext.Subresources ver with
  | Some sub => bool_decide (is_Some (apiext.Scale sub))
  | None => false
  end.

(** A version is eligible when it is served and not deprecated. *)
Definition eligible (ver : apiext.CustomResourceDefinitionVersion) : bool :=
  apiext.Served ver && negb (apiext.Deprecated ver).

(** The identifier of the definition [crd] at version [ver]. *)
Definition crdIdentifier (crd : apiext.CustomResourceDefinition)
    (ver : apiext.CustomResourceDefinitionVersion) : client.GVR :=
  client.mkGVR (strings.ToLower (apiext.Group (apiext.Spec crd)))
               (strings.ToLower (apiext.Name ver))
               (strings.ToLower (apiext.Plural (apiext.Names (apiext.Spec crd)))).

(** [addScale d] is [d] with the "scale" category appended. *)
Definition addScale (d : metav1.APIResource) : metav1.APIResource :=
  metav1.withCategories d (metav1.Categories d ++ [scaleCat]).

Section Registry.

(** The converter of the cluster library
    ([runtime.DefaultUnstructuredConverter.FromUnstructured]) from the
    content of an unstructured object to the structured definition; it is
    not code of the registry and is taken as given. *)
Variable FromUnstructured :
  gmap string Value -> apiext.CustomResourceDefinition + Error.

(** The body of the loop of [loadCRDs], for one listed object. *)
Definition loadCRD (m : ResourceMetas) (o : unstructured.Unstructured)
    : ResourceMetas :=
  match FromUnstructured (unstructured.Object o) with
  | inr _ => m
  | inl crd =>
      let '(id, version, ok) := newGVRFromCRD crd in
      if negb ok then m
      else match m !! id with
           | Some meta =>
               if declaresScale version
               then if negb (slices.Contains (metav1.Categories meta) scaleCat)
                    then <[id := metav1.withCategories meta
                                   (metav1.Categories meta ++ [scaleCat])]> m
                    else m
               else m
           | None => m
           end
  end.

Definition loadCRDs (f : Factory) (m : ResourceMetas) : ResourceMetas :=
  if negb (connected f) then m
  else
    let '(oo, err) := List f crdGVR client.ClusterScope true labels.Everything in
    match err with
    | Some _ => m
    | None => foldl loadCRD m oo
    end.

(** What one listed object [o] may do to the descriptor [d] stored under
    [id]: nothing, or append "scale" when it is not there yet and the
    eligible version of [o] names [id] and declares a scale subresource. *)
Definition augmentedBy (oo : list unstructured.Unstructured) (id : client.GVR)
    (d d' : metav1.APIResource) : Prop :=
  d' = d \/
  (IsScalable d = false /\ d' = addScale d /\
   exists o crd ver,
     o ∈ oo /\
     FromUnstructured (unstructured.Object o) = inl crd /\
     newGVRFromCRD crd = (id, ver, true) /\
     declaresScale ver = true).

(** *** The refresh *)

(** [LoadResources]: the store after the call, and the error returned. *)
Definition LoadResources (f : Factory) (m : ResourceMetas)
    : ResourceMetas * option Error :=
  let m := clear m in
  match loadPreferred f m with
  | (m, Some err) => (m, Some err)
  | (m, None) =>
      let m := loadNonResource m in
      let m := loadCRDs f m in
      (m, None)
  end.

(** The refresh with its phases in the order of the specification text:
    clear, register synthetics, query live discovery, augment. *)
Definition LoadResources_spec_order (f : Factory) (m : ResourceMetas)
    : ResourceMetas * option Error :=
  let m := clear m in
  let m := loadNonResource m in
  match loadPreferred f m with
  | (m, Some err) => (m, Some err)
  | (m, None) => (loadCRDs f m, None)
  end.

End Registry.

(** *** The weakly-typed extractor *)

Definition isNamespaced (scope : string) : bool := String.eqb scope "Namespaced".

Definition extractStr (m : gmap string Value) (n : string) (errs : list Error)
    : string * list Error :=
  match index m n with
  | VStr s => (s, errs)
  | _ => (EmptyString, errs ++ [ErrExtractStr n])
  end.

Definition extractMap (m : gmap string Value) (n : string) (errs : list Error)
    : gmap string Value * list Error :=
  match index m n with
  | VMap v => (v, errs)
  | _ => (∅, errs ++ [ErrExtractField n])
  end.

(** The loop of [extractSlice] over the elements of a []interface{}, with
    the strings gathered so far and the errors collected so far. *)
Fixpoint extractElems (n : string) (ii : list Value) (ss : list string)
    (errs : list Error) : list string * list Error :=
  match ii with
  | [] => (ss, errs)
  | name :: rest =>
      match name with
      | VStr o => extractElems n rest (ss ++ [o]) errs
      | VMap o =>
          match index o "name" with
          | VStr s => extractElems n rest (ss ++ [s]) errs
          | _ => extractElems n rest ss (errs ++ [ErrNoNameKey n])
          end
      | o => extractElems n rest ss (errs ++ [ErrUnknownFieldType o n])
      end
  end.

Definition extractSlice (m : gmap string Value) (n : string) (errs : list Error)
    : list string * list Error :=
  match index m n with
  | VNil => ([], errs)
  | VStrs s => (s, errs)
  | VSlice ii => extractElems n ii [] errs
  | _ => ([], errs ++ [ErrExtractSlice n m])
  end.

Definition extractMeta (o : runtime.Object) : metav1.APIResource * list Error :=
  let m := metav1.zero in
  let errs := [] in
  match o with
  | runtime.OfTyped t => (m, errs ++ [ErrExpectedUnstructured t])
  | runtime.OfUnstructured crd =>
      let '(spec, errs) := extractMap (unstructured.Object crd) "spec" errs in
      let '(meta, errs) := extractMap (unstructured.Object crd) "metadata" errs in
      let '(x, errs) := extractStr meta "name" errs in
      let m := metav1.withName m x in
      let '(x, errs) := extractStr spec "group" errs in
      let m := metav1.withGroup m x in
      let '(versions, errs) := extractSlice spec "versions" errs in
      let m := match versions with
               | v0 :: _ => metav1.withVersion m v0
               | [] => m
               end in
      let '(scope, errs) := extractStr spec "scope" errs in
      let m := metav1.withNamespaced m (isNamespaced scope) in
      let '(names, errs) := extractMap spec "names" errs in
      let '(x, errs) := extractStr names "kind" errs in
      let m := metav1.withKind m x in
      let '(x, errs) := extractStr names "singular" errs in
      let m := metav1.withSingularName m x in
      let '(x, errs) := extractStr names "plural" errs in
      let m := metav1.withName m x in
      let '(x, errs) := extractSlice names "shortNames" errs in
      let m := metav1.withShortNames m x in
      (m, errs)
  end.

(** *** What the extractor is expected to return *)

(** The string under key [n], or the empty string. *)
Definition str (m : gmap string Value) (n : string) : string :=
  match index m n with
  | VStr s => s
  | _ => EmptyString
  end.

(** The map under key [n], or the empty map. *)
Definition field (m : gmap string Value) (n : string) : gmap string Value :=
  match index m n with
  | VMap v => v
  | _ => ∅
  end.

(** The name an element of a sequence stands for: a plain string, or a map
    carrying a string under "name". *)
Definition elemName (e : Value) : option string :=
  match e with
  | VStr s => Some s
  | VMap o =>
      match index o "name" with
      | VStr s => Some s
      | _ => None
      end
  | _ => None
  end.

(** The strings under key [n]. *)
Definition strs (m : gmap string Value) (n : string) : list string :=
  match index m n with
  | VStrs s => s
  | VSlice ii => omap elemName ii
  | _ => []
  end.

(** The error of a string field: one when the value under [n] is missing
    or not a string. *)
Definition strErrs (m : gmap string Value) (n : string) : list Error :=
  match index m n with
  | VStr _ => []
  | _ => [ErrExtractStr n]
  end.

(** The error of a map field: one when the value under [n] is missing or
    not a map. *)
Definition mapErrs (m : gmap string Value) (n : string) : list Error :=
  match index m n with
  | VMap _ => []
  | _ => [ErrExtractField n]
  end.

(** The error of one element of the sequence under [n]. *)
Definition elemErrs (n : string) (e : Value) : list Error :=
  match e with
  | VStr _ => []
  | VMap o =>
      match index o "name" with
      | VStr _ => []
      | _ => [ErrNoNameKey n]
      end
  | o => [ErrUnknownFieldType o n]
  end.

(** The errors of a list-valued field: none when the value is absent or a
    []string, those of its elements when it is a sequence, one when it is
    of any other type. *)
Definition sliceErrs (m : gmap string Value) (n : string) : list Error :=
  match index m n with
  | VNil => []
  | VStrs _ => []
  | VSlice ii => flat_map (elemErrs n) ii
  | _ => [ErrExtractSlice n m]
  end.

(** All the errors of the content [obj] of an unstructured object, in the
    order the fields are probed. *)
Definition fieldErrors (obj : gmap string Value) : list Error :=
  let spec := field obj "spec" in
  let meta := field obj "metadata" in
  let names := field spec "names" in
  mapErrs obj "spec" ++ mapErrs obj "metadata" ++ strErrs meta "name" ++
  strErrs spec "group" ++ sliceErrs spec "versions" ++ strErrs spec "scope" ++
  mapErrs spec "names" ++ strErrs names "kind" ++ strErrs names "singular" ++
  strErrs names "plural" ++ sliceErrs names "shortNames".

(** The best-effort descriptor of [obj]. *)
Definition partialMeta (obj : gmap string Value) : metav1.APIResource :=
  let spec := field obj "spec" in
  let names := field spec "names" in
  metav1.mkAPIResource
    (str names "plural") (str names "singular") (isNamespaced (str spec "scope"))
    (str spec "group") (hd EmptyString (strs spec "versions")) (str names "kind")
    [] (strs names "shortNames") [].

(** Whether the value under [n] is a string, a map, a list. *)
Definition isStr (m : gmap string Value) (n : string) : bool :=
  match index m n with VStr _ => true | _ => false end.
Definition isMap (m : gmap string Value) (n : string) : bool :=
  match index m n with VMap _ => true | _ => false end.
Definition isList (m : gmap string Value) (n : string) : bool :=
  match index m n with VStrs _ | VSlice _ => true | _ => false end.

(** The elements of the sequence under [n] that are neither a string nor a
    map with a name. *)
Definition badElems (m : gmap string Value) (n : string) : nat :=
  match index m n with
  | VSlice ii => length (List.filter (fun e => negb (bool_decide (is_Some (elemName e)))) ii)
  | _ => 0
  end.

(** The number of errors a list-valued field gives. *)
Definition sliceFailures (m : gmap string Value) (n : string) : nat :=
  match index m n with
  | VNil => 0
  | _ => (if isList m n then 0 else 1) + badElems m n
  end.

Definition failures (obj : gmap string Value) : nat :=
  let spec := field obj "spec" in
  let meta := field obj "metadata" in
  let names := field spec "names" in
  let one (ok : bool) := if ok then 0 else 1 in
  one (isMap obj "spec") + one (isMap obj "metadata") + one (isStr meta "name") +
  one (isStr spec "group") + sliceFailures spec "versions" +
  one (isStr spec "scope") + one (isMap spec "names") + one (isStr names "kind") +
  one (isStr names "singular") + one (isStr names "plural") +
  sliceFailures names "shortNames".

(** The number of errors by the words of the specification: one for each
    field that is missing or of the wrong type, list-valued fields
    included, and one for each element of a sequence of another shape. *)
Definition failures_spec (obj : gmap string Value) : nat :=
  let spec := field obj "spec" in
  let meta := field obj "metadata" in
  let names := field spec "names" in
  let one (ok : bool) := if ok then 0 else 1 in
  one (isMap obj "spec") + one (isMap obj "metadata") + one (isStr meta "name") +
  one (isStr spec "group") +
  (one (isList spec "versions") + badElems spec "versions") +
  one (isStr spec "scope") + one (isMap spec "names") + one (isStr names "kind") +
  one (isStr names "singular") + one (isStr names "plural") +
  (one (isList names "shortNames") + badElems names "shortNames").

(** The classification of a group-version by the words of the
    specification: an exact member of the allow-list, or ending with the
    built-in domain suffix. *)
Definition isStandardGroup_spec (gv : string) : bool :=
  Has stdGroups gv || strings.HasSuffix gv ".k8s.io".

(** ** Sample upstream data *)

(** A converter that rejects every object. *)
Definition rejectAll (obj : gmap string Value)
    : apiext.CustomResourceDefinition + Error :=
  inr (ErrUpstream "not a custom resource definition").

Definition widgetCRD : apiext.CustomResourceDefinition :=
  apiext.mkCRD
    (apiext.mkSpec "example.com"
       (apiext.mkNames "widgets" "widget" [] "Widget") "Namespaced"
       [ apiext.mkVersion "v1alpha1" false false false None;
         apiext.mkVersion "v1" true true false
           (Some (apiext.mkSubresources false
                    (Some (apiext.mkScale ".spec.replicas" ".status.replicas")))) ]).

(** A converter that reads the kind of the object and knows widgets. *)
Definition widgetsOnly (obj : gmap string Value)
    : apiext.CustomResourceDefinition + Error :=
  match index obj "kind" with
  | VStr "Widget" => inl widgetCRD
  | _ => inr (ErrUpstream "not a custom resource definition")
  end.

Definition widgetObject : unstructured.Unstructured :=
  unstructured.mkUnstructured (<["kind" := VStr "Widget"]> ∅).

Definition noObjects (id : string) (ns : client.Namespace) (wait : bool)
    (sel : labels.Selector) : list unstructured.Unstructured * option Error :=
  ([], None).

(** No client at all. *)
Definition noClient : Factory := mkFactory None noObjects.

(** A client whose connection is down. *)
Definition offline : Factory :=
  mkFactory (Some (mkConnection false (inr (ErrUpstream "connection refused"))))
            noObjects.

(** A reachable cluster whose discovery handle cannot be obtained. *)
Definition noDiscovery : Factory :=
  mkFactory (Some (mkConnection true (inr (ErrUpstream "no discovery cache"))))
            noObjects.

Definition resource (name kind : string) : metav1.APIResource :=
  metav1.mkAPIResource name EmptyString true EmptyString EmptyString kind ["get"; "list"] [] [].

(** A reachable cluster: deployments, the deprecated ingresses, widgets of
    an extension group, and a definition object for the widgets. *)
Definition cluster : Factory :=
  mkFactory
    (Some (mkConnection true
       (inl (mkDiscovery
          ([ metav1.mkAPIResourceList "apps/v1" [resource "deployments" "Deployment"];
             metav1.mkAPIResourceList "extensions/v1beta1" [resource "ingresses" "Ingress"];
             metav1.mkAPIResourceList "example.com/v1" [resource "widgets" "Widget"] ],
           None)))))
    (fun _ _ _ _ => ([widgetObject], None)).

(** The definition of the widgets as a weakly-typed object, with every
    field but the short names. *)
Definition widgetDefinition : unstructured.Unstructured :=
  unstructured.mkUnstructured
    (<["metadata" := VMap (<["name" := VStr "widgets.example.com"]> ∅)]>
     (<["spec" := VMap
         (<["group" := VStr "example.com"]>
          (<["scope" := VStr "Namespaced"]>
           (<["versions" := VSlice
               [ VMap (<["name" := VStr "v1alpha1"]> ∅);
                 VMap (<["name" := VStr "v1"]> ∅) ]]>
            (<["names" := VMap
                (<["kind" := VStr "Widget"]>
                 (<["singular" := VStr "widget"]>
                  (<["plural" := VStr "widgets"]> ∅)))]> ∅))))]> ∅)).

(** A catalog holding one live entry. *)
Definition podsOnly : ResourceMetas :=
  <[client.NewGVR "v1/pods" := resource "pods" "Pod"]> ∅.


(** ** Notions used in the further properties *)


(** The resource [res] is reported by discovery in the list [rl] of the
    lists [rr]. *)
Definition reported (rr : list metav1.APIResourceList)
    (rl : metav1.APIResourceList) (res : metav1.APIResource) : Prop :=
  rl ∈ rr /\ res ∈ metav1.APIResources rl.

(** The identifier a listed object asks to be marked scalable: that of the
    first eligible version of its definition, when the object converts, has
    such a version, and that version declares a scale subresource. *)
Definition scaleTarget
    (conv : gmap string Value -> apiext.CustomResourceDefinition + Error)
    (o : unstructured.Unstructured) : option client.GVR :=
  match conv (unstructured.Object o) with
  | inr _ => None
  | inl crd =>
      let '(id, ver, ok) := newGVRFromCRD crd in
      if ok && declaresScale ver then Some id else None
  end.

(** The factory [f] with the objects of every listing restricted to those
    that ask for a scalable identifier. *)
Definition onlyScaleTargets
    (conv : gmap string Value -> apiext.CustomResourceDefinition + Error)
    (f : Factory) : Factory :=
  mkFactory (Client f)
    (fun id ns wait sel =>
       let '(oo, err) := List f id ns wait sel in
       (filter (fun o => is_Some (scaleTarget conv o)) oo, err)).

(** The descriptors [d] and [d'] differ at most in their categories, and
    are classified alike. *)
Definition sameClass (d d' : metav1.APIResource) : Prop :=
  metav1.Name d' = metav1.Name d /\
  metav1.SingularName d' = metav1.SingularName d /\
  metav1.Namespaced d' = metav1.Namespaced d /\
  metav1.Group d' = metav1.Group d /\
  metav1.Version d' = metav1.Version d /\
  metav1.Kind d' = metav1.Kind d /\
  metav1.Verbs d' = metav1.Verbs d /\
  metav1.ShortNames d' = metav1.ShortNames d /\
  (forall c, c ∈ metav1.Categories d -> c ∈ metav1.Categories d') /\
  IsCRD d' = IsCRD d /\
  IsK8sMeta d' = IsK8sMeta d /\
  IsK9sMeta d' = IsK9sMeta d.

(** A list-valued field is in order when it is absent, a []string, or a
    sequence whose elements all stand for a name. *)
Definition listOK (m : gmap string Value) (n : string) : bool :=
  match index m n with
  | VNil | VStrs _ => true
  | VSlice ii => forallb (fun e => bool_decide (is_Some (elemName e))) ii
  | _ => false
  end.

(** Every field the extractor probes in the content [obj] is in order. *)
Definition wellFormed (obj : gmap string Value) : bool :=
  let spec := field obj "spec" in
  let meta := field obj "metadata" in
  let names := field spec "names" in
  isMap obj "spec" && isMap obj "metadata" && isStr meta "name" &&
  isStr spec "group" && listOK spec "versions" && isStr spec "scope" &&
  isMap spec "names" && isStr names "kind" && isStr names "singular" &&
  isStr names "plural" && listOK names "shortNames".

(** ** More sample data *)

(** The discovery and the connection of the sample cluster. *)
Definition clusterDiscovery : Discovery :=
  mkDiscovery
    ([ metav1.mkAPIResourceList "apps/v1" [resource "deployments" "Deployment"];
       metav1.mkAPIResourceList "extensions/v1beta1" [resource "ingresses" "Ingress"];
       metav1.mkAPIResourceList "example.com/v1" [resource "widgets" "Widget"] ],
     None).

Definition clusterConnection : Connection :=
  mkConnection true (inl clusterDiscovery).

(** A catalog holding the widgets alone, as discovery installs them. *)
Definition widgetsOnlyCatalog : ResourceMetas :=
  <[client.NewGVR "example.com/v1/widgets" := resource "widgets" "Widget"]> ∅.

(** A list of versions with one element of an unknown shape. *)
Definition mixedVersions : gmap string Value :=
  <["versions" := VSlice [ VStr "v1"; VOther "int";
                           VMap (<["name" := VStr "v2"]> ∅) ]]> ∅.
(** ** Properties *)

(** *** Strings and sets *)

Lemma HasPrefix_spec (s p : string) :
  strings.HasPrefix s p = true <-> exists post, s = p +:+ post.
Proof.
  revert s. induction p as [|a p IH]; intros s; simpl.
  - split; [intros _; by exists s | done].
  - destruct s as [|b s]; simpl.
    + split; [done | by intros [post ?]].
    + rewrite andb_true_iff, IH. split.
      * intros [Hab [post ->]]. apply Ascii.eqb_eq in Hab as ->. by exists post.
      * intros [post [= -> ->]]. split; [apply Ascii.eqb_refl | by exists post].
Qed.

Lemma Contains_spec (s sub : string) :
  strings.Contains s sub = true <-> exists pre post, s = pre +:+ sub +:+ post.
Proof.
  induction s as [|c s IH]; simpl.
  - rewrite orb_false_r, HasPrefix_spec. split.
    + intros [post ->]. by exists EmptyString, post.
    + intros [pre [post H]]. destruct pre; [by exists post | done].
  - rewrite orb_true_iff, HasPrefix_spec, IH. split.
    + intros [[post ->] | [pre [post ->]]].
      * by exists EmptyString, post.
      * by exists (String c pre), post.
    + intros [pre [post H]]. destruct pre as [|c' pre]; simpl in H.
      * left. by exists post.
      * right. injection H as -> ->. by exists pre, post.
Qed.

Lemma Has_true `{Countable A} (s : gset A) (x : A) : Has s x = true <-> x ∈ s.
Proof. unfold Has. apply bool_decide_eq_true. Qed.

Lemma Has_false `{Countable A} (s : gset A) (x : A) : Has s x = false <-> x ∉ s.
Proof. unfold Has. apply bool_decide_eq_false. Qed.

(** *** The store is empty after [clear] *)

Lemma lookup_foldr_delete (l : list client.GVR) (m : ResourceMetas) (k : client.GVR) :
  foldr (fun k acc => delete k acc) m l !! k
  = if decide (k ∈ l) then None else m !! k.
Proof.
  induction l as [|a l IH]; simpl.
  - done.
  - rewrite lookup_delete, IH.
    destruct (decide (a = k)) as [->|Hne].
    + rewrite decide_True; [done | by left].
    + destruct (decide (k ∈ l)) as [Hin|Hout].
      * rewrite decide_True; [done | by right].
      * rewrite decide_False; [done|].
        intros [->|]%elem_of_cons; done.
Qed.

Lemma clear_empty (m : ResourceMetas) : clear m = ∅.
Proof.
  apply map_eq. intros k. unfold clear.
  rewrite lookup_foldr_delete, lookup_empty.
  case_decide as Hk; [done|].
  destruct (m !! k) as [d|] eqn:Hd; [|done].
  exfalso. apply Hk. apply list_elem_of_fmap. exists (k, d).
  split; [done | by apply elem_of_map_to_list].
Qed.

(** *** The extension-type pass *)


Lemma firstServed_found crd versions id ver :
  firstServed crd versions = (id, ver, true) ->
  exists pre post,
    versions = pre ++ ver :: post /\
    Forall (fun w => eligible w = false) pre /\
    eligible ver = true /\
    id = crdIdentifier crd ver.
Proof.
  induction versions as [|w rest IH]; simpl; [done|].
  fold (eligible w). destruct (eligible w) eqn:Hw.
  - intros [= <- <-]. exists [], rest. by repeat split.
  - intros (pre & post & -> & Hpre & Hver & ->)%IH.
    exists (w :: pre), post. repeat split; [|done]. by constructor.
Qed.

Lemma firstServed_none crd versions id ver :
  firstServed crd versions = (id, ver, false) ->
  Forall (fun w => eligible w = false) versions /\
  id = client.mkGVR EmptyString EmptyString EmptyString /\ ver = apiext.zeroVersion.
Proof.
  induction versions as [|w rest IH]; simpl.
  - by intros [= <- <-].
  - fold (eligible w). destruct (eligible w) eqn:Hw; [done|].
    intros (? & ? & ?)%IH. repeat split; [|done..]. by constructor.
Qed.

Section RegistryFacts.

Variable conv : gmap string Value -> apiext.CustomResourceDefinition + Error.


Lemma IsScalable_addScale d : IsScalable (addScale d) = true.
Proof.
  unfold IsScalable, addScale, slices.Contains.
  cbn [metav1.Categories metav1.withCategories].
  rewrite existsb_app. cbn [existsb]. by rewrite String.eqb_refl, orb_true_r.
Qed.

Lemma augmentedBy_refl oo id d : augmentedBy conv oo id d d.
Proof. by left. Qed.

Lemma augmentedBy_cons o oo id d1 d2 d3 :
  augmentedBy conv [o] id d1 d2 -> augmentedBy conv oo id d2 d3 ->
  augmentedBy conv (o :: oo) id d1 d3.
Proof.
  intros [-> | (Hno & -> & o' & crd & ver & Ho' & ?)].
  - intros [-> | (Hno & -> & o' & crd & ver & Ho' & ?)]; [by left|].
    right. repeat split; [done|]. exists o', crd, ver. split; [|done].
    by apply elem_of_cons; right.
  - intros [-> | (Hno' & _)].
    + right. repeat split; [done|]. exists o', crd, ver. split; [|done].
      apply list_elem_of_singleton in Ho' as ->. by apply elem_of_cons; left.
    + by rewrite IsScalable_addScale in Hno'.
Qed.

Lemma loadCRD_lookup m o id :
  option_Forall2 (augmentedBy conv [o] id) (m !! id) (loadCRD conv m o !! id).
Proof.
  assert (Hsame : option_Forall2 (augmentedBy conv [o] id) (m !! id) (m !! id)).
  { destruct (m !! id); constructor. by left. }
  unfold loadCRD.
  destruct (conv (unstructured.Object o)) as [crd|] eqn:Hconv; [|done].
  destruct (newGVRFromCRD crd) as [[id' ver] ok] eqn:Hnew.
  destruct ok; simpl; [|done].
  destruct (m !! id') as [meta|] eqn:Hmeta; [|done].
  destruct (declaresScale ver) eqn:Hscale; [|done].
  destruct (slices.Contains (metav1.Categories meta) scaleCat) eqn:Hhas; simpl; [done|].
  destruct (decide (id' = id)) as [->|Hne].
  - rewrite Hmeta, lookup_insert_eq. constructor. right.
    repeat split; [done|]. exists o, crd, ver.
    split; [by apply list_elem_of_singleton | done].
  - by rewrite lookup_insert_ne.
Qed.

Lemma foldl_loadCRD_lookup oo m id :
  option_Forall2 (augmentedBy conv oo id) (m !! id) (foldl (loadCRD conv) m oo !! id).
Proof.
  revert m. induction oo as [|o oo IH]; intros m; simpl.
  - destruct (m !! id); constructor. by left.
  - pose proof (loadCRD_lookup m o id) as Hstep.
    pose proof (IH (loadCRD conv m o)) as Hrest.
    destruct Hstep as [d1 d2 H12|]; inversion Hrest as [? d3 H23|]; subst;
      constructor.
    by eapply augmentedBy_cons.
Qed.

Lemma loadCRDs_lookup f m id :
  option_Forall2
    (augmentedBy conv
       (List f crdGVR client.ClusterScope true labels.Everything).1 id)
    (m !! id) (loadCRDs conv f m !! id).
Proof.
  assert (Hsame : forall oo, option_Forall2 (augmentedBy conv oo id) (m !! id) (m !! id)).
  { intros oo. destruct (m !! id); constructor. by left. }
  unfold loadCRDs. destruct (connected f); simpl; [|done].
  destruct (List f crdGVR client.ClusterScope true labels.Everything)
    as [oo [err|]]; simpl; [done|].
  apply foldl_loadCRD_lookup.
Qed.

Lemma loadCRDs_dom f m : dom (loadCRDs conv f m) = dom m.
Proof.
  apply set_eq. intros id. rewrite !elem_of_dom.
  destruct (loadCRDs_lookup f m id) as [d d' _|]; split; intros [? ?]; eauto; done.
Qed.

(** C6: the extension-type pass adds no identifier to the catalog, and the
    only change it makes to a stored descriptor is to append the "scale"
    category, which it does when the category is not there yet and a
    listed definition whose authoritative version names the identifier
    declares a scale subresource. *)
Theorem loadCRDs_augmentation_only (f : Factory) (m : ResourceMetas) :
  dom (loadCRDs conv f m) = dom m /\
  forall id,
    option_Forall2
      (augmentedBy conv
         (List f crdGVR client.ClusterScope true labels.Everything).1 id)
      (m !! id) (loadCRDs conv f m !! id).
Proof. split; [apply loadCRDs_dom | intros id; apply loadCRDs_lookup]. Qed.

End RegistryFacts.

(** C5: the identifier of a custom type definition is derived from the
    first declared version that is served and not deprecated; when no
    version is, [newGVRFromCRD] reports failure and the object leaves the
    catalog as it was, whatever the converter and the catalog. *)
Theorem newGVRFromCRD_first_eligible (crd : apiext.CustomResourceDefinition) :
  match newGVRFromCRD crd with
  | (id, ver, true) =>
      exists pre post,
        apiext.Versions (apiext.Spec crd) = pre ++ ver :: post /\
        Forall (fun w => eligible w = false) pre /\
        eligible ver = true /\
        id = crdIdentifier crd ver
  | (id, ver, false) =>
      Forall (fun w => eligible w = false) (apiext.Versions (apiext.Spec crd)) /\
      forall conv o m,
        conv (unstructured.Object o) = inl crd -> loadCRD conv m o = m
  end.
Proof.
  destruct (newGVRFromCRD crd) as [[id ver] [|]] eqn:Hnew; unfold newGVRFromCRD in Hnew.
  - by apply firstServed_found in Hnew.
  - split; [by apply firstServed_none in Hnew as [? _]|].
    intros conv o m Hconv. unfold loadCRD. rewrite Hconv.
    unfold newGVRFromCRD. by rewrite Hnew.
Qed.

(** *** Synthetic registration and live discovery *)

Lemma loadNonResource_union (m : ResourceMetas) :
  loadNonResource m = loadNonResource ∅ ∪ m.
Proof.
  unfold loadNonResource, loadHelm, loadRBAC, loadK9s. cbv zeta.
  rewrite <- !insert_union_l. by rewrite (left_id ∅ _).
Qed.

Lemma loadNonResource_dom :
  dom (loadNonResource ∅) =
  list_to_set (client.NewGVR <$>
    [ "workloads"; "pulses"; "dir"; "xrays"; "references"; "aliases";
      "contexts"; "screendumps"; "benchmarks"; "portforwards"; "containers";
      "scans"; "rbac"; "policy"; "users"; "groups"; "helm"; "helm-history" ]).
Proof.
  unfold loadNonResource, loadHelm, loadRBAC, loadK9s. cbv zeta.
  rewrite !dom_insert_L, dom_empty_L. cbn [fmap list_fmap list_to_set].
  set_solver.
Qed.

Lemma loadNonResource_size : size (loadNonResource ∅) = 18.
Proof. vm_compute. reflexivity. Qed.

Lemma loadPreferred_disconnected (f : Factory) (m : ResourceMetas) :
  connected f = false -> loadPreferred f m = (m, None).
Proof.
  unfold connected, loadPreferred. destruct (Client f) as [c|]; [|done].
  by intros ->.
Qed.

Lemma loadPreferred_error (f : Factory) (m m' : ResourceMetas) (err : Error) :
  loadPreferred f m = (m', Some err) -> m' = m.
Proof.
  unfold loadPreferred. destruct (Client f) as [c|]; [|done].
  destruct (ConnectionOK c); simpl; [|done].
  destruct (CachedDiscovery c) as [dial|e]; [|by intros [= <- _]].
  by destruct (ServerPreferredResources dial).
Qed.

Lemma deprecated_is (id : client.GVR) :
  id ∈ deprecatedGVRs -> id = client.NewGVR "extensions/v1beta1/ingresses".
Proof.
  unfold deprecatedGVRs. cbn [list_to_set].
  rewrite (right_id_L ∅ _). apply elem_of_singleton.
Qed.

Lemma loadPreferredResource_deprecated gv (m : ResourceMetas) res id :
  id ∈ deprecatedGVRs -> loadPreferredResource gv m res !! id = m !! id.
Proof.
  intros Hid. unfold loadPreferredResource.
  destruct (isDeprecated _) eqn:Hdep; [done|].
  apply Has_false in Hdep. rewrite lookup_insert_ne; [done|].
  congruence.
Qed.

Lemma loadPreferred_deprecated f (m : ResourceMetas) id :
  id ∈ deprecatedGVRs -> (loadPreferred f m).1 !! id = m !! id.
Proof.
  intros Hid. unfold loadPreferred. destruct (Client f) as [c|]; [|done].
  destruct (ConnectionOK c); simpl; [|done].
  destruct (CachedDiscovery c) as [dial|e]; [|done].
  destruct (ServerPreferredResources dial) as [rr e]. simpl.
  revert m. induction rr as [|rl rr IH]; intros m; simpl; [done|].
  rewrite IH. unfold loadPreferredList.
  generalize (metav1.APIResources rl). intros l. revert m.
  induction l as [|res l IHl]; intros m; simpl; [done|].
  by rewrite IHl, loadPreferredResource_deprecated.
Qed.

Lemma loadNonResource_deprecated (m : ResourceMetas) id :
  id ∈ deprecatedGVRs -> loadNonResource m !! id = m !! id.
Proof.
  intros ->%deprecated_is. rewrite loadNonResource_union.
  apply lookup_union_r. vm_compute. reflexivity.
Qed.

Section Refresh.

Variable conv : gmap string Value -> apiext.CustomResourceDefinition + Error.

Lemma loadCRDs_disconnected (f : Factory) (m : ResourceMetas) :
  connected f = false -> loadCRDs conv f m = m.
Proof. unfold loadCRDs. by intros ->. Qed.

Lemma LoadResources_from_empty (f : Factory) (m : ResourceMetas) :
  LoadResources conv f m = LoadResources conv f ∅.
Proof. unfold LoadResources. by rewrite !clear_empty. Qed.

(** C1 (amended): the refresh clears the store, then populates it from
    live discovery, returning the error of the discovery handle with the
    store left empty, then registers the synthetic descriptors over the
    live ones, then runs the extension-type pass: the catalog is the
    synthetic table laid over the live entries, with "scale" added by the
    extension-type pass. *)
Theorem LoadResources_phase_order (f : Factory) (m : ResourceMetas) :
  match loadPreferred f ∅ with
  | (_, Some err) => LoadResources conv f m = (∅, Some err)
  | (live, None) =>
      LoadResources conv f m = (loadCRDs conv f (loadNonResource live), None) /\
      forall id,
        option_Forall2
          (augmentedBy conv
             (List f crdGVR client.ClusterScope true labels.Everything).1 id)
          ((loadNonResource ∅ ∪ live) !! id)
          ((LoadResources conv f m).1 !! id)
  end.
Proof.
  destruct (loadPreferred f ∅) as [live [err|]] eqn:Hlive.
  - unfold LoadResources. rewrite clear_empty, Hlive.
    by rewrite (loadPreferred_error _ _ _ _ Hlive).
  - assert (Heq : LoadResources conv f m
                  = (loadCRDs conv f (loadNonResource live), None)).
    { unfold LoadResources. by rewrite clear_empty, Hlive. }
    split; [done|]. intros id. rewrite Heq. simpl.
    rewrite <- loadNonResource_union. apply loadCRDs_lookup.
Qed.

(** C3: with no active connection the refresh succeeds, and whatever the
    store held before, the catalog afterwards is the synthetic table alone:
    its eighteen identifiers, each with a tool-internal (k9s or helm)
    descriptor. *)
Theorem LoadResources_disconnected (f : Factory) (m : ResourceMetas)
    (Hdown : connected f = false) :
  (LoadResources conv f m).2 = None /\
  (LoadResources conv f m).1 = loadHelm (loadRBAC (loadK9s ∅)) /\
  dom (LoadResources conv f m).1 =
    list_to_set (client.NewGVR <$>
      [ "workloads"; "pulses"; "dir"; "xrays"; "references"; "aliases";
        "contexts"; "screendumps"; "benchmarks"; "portforwards"; "containers";
        "scans"; "rbac"; "policy"; "users"; "groups"; "helm"; "helm-history" ]) /\
  size (LoadResources conv f m).1 = 18 /\
  map_Forall (fun _ d => IsK8sMeta d = false) (LoadResources conv f m).1.
Proof.
  assert (Heq : LoadResources conv f m = (loadNonResource ∅, None)).
  { unfold LoadResources.
    rewrite clear_empty, loadPreferred_disconnected by done.
    by rewrite loadCRDs_disconnected. }
  rewrite Heq. cbn [fst snd].
  split; [done|]. split; [done|].
  split; [apply loadNonResource_dom|].
  split; [apply loadNonResource_size|].
  - unfold loadNonResource, loadHelm, loadRBAC, loadK9s. cbv zeta.
    repeat (apply map_Forall_insert_2; [reflexivity|]).
    apply map_Forall_empty.
Qed.

(** C4: when the connection is up and the discovery handle cannot be
    obtained, the refresh returns that error and leaves the catalog empty,
    synthetic descriptors included: every lookup fails, the enumeration is
    empty and no kind resolves, in whatever order the scan visits the
    store. *)
Theorem LoadResources_no_discovery (f : Factory) (m : ResourceMetas)
    (c : Connection) (err : Error)
    (Hclient : Client f = Some c) (Hup : ConnectionOK c = true)
    (Hdial : CachedDiscovery c = inr err) :
  (LoadResources conv f m).2 = Some err /\
  (LoadResources conv f m).1 = ∅ /\
  (forall id, MetaFor (LoadResources conv f m).1 id
              = (metav1.zero, Some (ErrNoResourceMeta id))) /\
  AllGVRs (LoadResources conv f m).1 = [] /\
  (forall entries gv kind,
     entries ≡ₚ map_to_list (LoadResources conv f m).1 ->
     GVK2GVRIn entries gv kind = (client.NoGVR, false, false)) /\
  (forall gv kind,
     GVK2GVR (LoadResources conv f m).1 gv kind = (client.NoGVR, false, false)).
Proof.
  assert (Heq : LoadResources conv f m = (∅, Some err)).
  { unfold LoadResources, loadPreferred.
    by rewrite clear_empty, Hclient, Hup, Hdial. }
  rewrite Heq. cbn [fst snd].
  split; [done|]. split; [done|].
  split; [intros id; unfold MetaFor; by rewrite lookup_empty|].
  split; [unfold AllGVRs; by rewrite map_to_list_empty|].
  split.
  - intros entries gv kind. rewrite map_to_list_empty.
    by intros ->%Permutation_nil_r.
  - intros gv kind. unfold GVK2GVR. by rewrite map_to_list_empty.
Qed.

(** C7: an identifier of the deprecation deny-list is absent from the
    catalog after a refresh, whatever the collaborators report and whatever
    the store held before. *)
Theorem deprecated_never_cataloged (f : Factory) (m : ResourceMetas)
    (id : client.GVR) (Hid : id ∈ deprecatedGVRs) :
  (LoadResources conv f m).1 !! id = None.
Proof.
  unfold LoadResources. rewrite clear_empty.
  pose proof (loadPreferred_deprecated f ∅ id Hid) as Hlive.
  destruct (loadPreferred f ∅) as [live [err|]]; simpl in *.
  - by rewrite Hlive.
  - pose proof (loadCRDs_lookup conv f (loadNonResource live) id) as Haug.
    rewrite loadNonResource_deprecated, Hlive, lookup_empty in Haug by done.
    by inversion Haug.
Qed.

(** C10: a second refresh against the same collaborators returns what the
    first one did: the same catalog and the same error. *)
Theorem LoadResources_idempotent (f : Factory) (m : ResourceMetas) :
  LoadResources conv f (LoadResources conv f m).1 = LoadResources conv f m.
Proof. by rewrite LoadResources_from_empty, (LoadResources_from_empty f m). Qed.

End Refresh.

(** *** The weakly-typed extractor *)

Lemma extractStr_eq (m : gmap string Value) (n : string) (errs : list Error) :
  extractStr m n errs = (str m n, errs ++ strErrs m n).
Proof.
  unfold extractStr, str, strErrs.
  destruct (index m n); by rewrite ?app_nil_r.
Qed.

Lemma extractMap_eq (m : gmap string Value) (n : string) (errs : list Error) :
  extractMap m n errs = (field m n, errs ++ mapErrs m n).
Proof.
  unfold extractMap, field, mapErrs.
  destruct (index m n); by rewrite ?app_nil_r.
Qed.

Lemma extractElems_eq (n : string) (ii : list Value) (ss : list string)
    (errs : list Error) :
  extractElems n ii ss errs
  = (ss ++ omap elemName ii, errs ++ flat_map (elemErrs n) ii).
Proof.
  revert ss errs. induction ii as [|e ii IH]; intros ss errs; simpl.
  - by rewrite !app_nil_r.
  - destruct e as [| s | l | l | o | t]; simpl;
      try (by rewrite IH, <- !app_assoc).
    destruct (index o "name"); simpl; by rewrite IH, <- ?app_assoc.
Qed.

Lemma extractSlice_eq (m : gmap string Value) (n : string) (errs : list Error) :
  extractSlice m n errs = (strs m n, errs ++ sliceErrs m n).
Proof.
  unfold extractSlice, strs, sliceErrs.
  destruct (index m n); rewrite ?extractElems_eq, ?app_nil_r; done.
Qed.

Lemma strErrs_length (m : gmap string Value) (n : string) :
  length (strErrs m n) = if isStr m n then 0 else 1.
Proof. unfold strErrs, isStr. by destruct (index m n). Qed.

Lemma mapErrs_length (m : gmap string Value) (n : string) :
  length (mapErrs m n) = if isMap m n then 0 else 1.
Proof. unfold mapErrs, isMap. by destruct (index m n). Qed.

Lemma elemErrs_length (n : string) (e : Value) :
  length (elemErrs n e) = if bool_decide (is_Some (elemName e)) then 0 else 1.
Proof.
  destruct e as [| s | l | l | o | t]; simpl; try done.
  by destruct (index o "name").
Qed.

Lemma flat_map_elemErrs_length (n : string) (ii : list Value) :
  length (flat_map (elemErrs n) ii)
  = length (List.filter (fun e => negb (bool_decide (is_Some (elemName e)))) ii).
Proof.
  induction ii as [|e ii IH]; simpl; [done|].
  rewrite length_app, elemErrs_length, IH.
  by destruct (bool_decide (is_Some (elemName e))).
Qed.

Lemma sliceErrs_length (m : gmap string Value) (n : string) :
  length (sliceErrs m n) = sliceFailures m n.
Proof.
  unfold sliceErrs, sliceFailures, isList, badElems.
  destruct (index m n); simpl; try done.
  apply flat_map_elemErrs_length.
Qed.

Lemma fieldErrors_length (obj : gmap string Value) :
  length (fieldErrors obj) = failures obj.
Proof.
  unfold fieldErrors, failures. cbv zeta.
  rewrite !length_app, !strErrs_length, !mapErrs_length, !sliceErrs_length.
  lia.
Qed.

(** C8 (amended): on an unstructured object the extractor never aborts
    early.  Each string or map field that is missing or of another type
    gives exactly one error; a list-valued field gives no error when it is
    absent or a []string, one error for each element that is neither a
    string nor a map with a string under "name" when it is a sequence (the
    other elements are kept), and one error when its value is of any other
    type.  Extraction goes on past each failure, and the best-effort
    descriptor comes back with the whole error list.  An object that is
    not unstructured gives the zero descriptor and one error. *)
Theorem extractMeta_collects (o : runtime.Object) :
  match o with
  | runtime.OfTyped t =>
      extractMeta o = (metav1.zero, [ErrExpectedUnstructured t])
  | runtime.OfUnstructured crd =>
      extractMeta o = (partialMeta (unstructured.Object crd),
                       fieldErrors (unstructured.Object crd)) /\
      length (extractMeta o).2 = failures (unstructured.Object crd)
  end.
Proof.
  destruct o as [crd|t]; [|done].
  assert (Heq : extractMeta (runtime.OfUnstructured crd)
                = (partialMeta (unstructured.Object crd),
                   fieldErrors (unstructured.Object crd))).
  { unfold extractMeta, partialMeta, fieldErrors. cbv zeta.
    repeat (rewrite ?extractMap_eq, ?extractStr_eq, ?extractSlice_eq;
            cbv beta iota).
    generalize (unstructured.Object crd). intros obj.
    generalize (strs (field obj "spec") "versions"),
               (strs (field (field obj "spec") "names") "shortNames"),
               (str (field obj "metadata") "name"),
               (str (field obj "spec") "group"),
               (str (field obj "spec") "scope"),
               (str (field (field obj "spec") "names") "kind"),
               (str (field (field obj "spec") "names") "singular"),
               (str (field (field obj "spec") "names") "plural").
    intros versions shortNames name group scope kind singular plural.
    rewrite app_nil_l, <- !app_assoc.
    f_equal. by destruct versions. }
  split; [done|]. rewrite Heq. apply fieldErrors_length.
Qed.

(** C8, as stated, fails on the definition of the widgets: its short names
    are missing and no error is collected, where the specification counts
    one. *)
Lemma extractMeta_missing_list_counterexample :
  index (field (field (unstructured.Object widgetDefinition) "spec") "names")
        "shortNames" = VNil /\
  (extractMeta (runtime.OfUnstructured widgetDefinition)).2 = [] /\
  (length (extractMeta (runtime.OfUnstructured widgetDefinition)).2
   <> failures_spec (unstructured.Object widgetDefinition)).
Proof. vm_compute. repeat split; [reflexivity..|discriminate]. Qed.

Example extractMeta_widgets :
  (extractMeta (runtime.OfUnstructured widgetDefinition)).1
  = metav1.mkAPIResource "widgets" "widget" true "example.com" "v1alpha1"
                         "Widget" [] [] [].
Proof. vm_compute. reflexivity. Qed.

Example extractMeta_empty_object :
  (extractMeta (runtime.OfUnstructured (unstructured.mkUnstructured ∅))).2
  = [ ErrExtractField "spec"; ErrExtractField "metadata"; ErrExtractStr "name";
      ErrExtractStr "group"; ErrExtractStr "scope"; ErrExtractField "names";
      ErrExtractStr "kind"; ErrExtractStr "singular"; ErrExtractStr "plural" ].
Proof. vm_compute. reflexivity. Qed.

Example extractSlice_mixed_elements :
  extractSlice
    (<["versions" := VSlice [ VStr "v1"; VOther "int";
                              VMap (<["name" := VStr "v2"]> ∅); VMap ∅ ]]> ∅)
    "versions" []
  = (["v1"; "v2"],
     [ErrUnknownFieldType (VOther "int") "versions"; ErrNoNameKey "versions"]).
Proof. vm_compute. reflexivity. Qed.

(** *** Classification of group-versions *)

(** C2 (amended): a group-version is standard exactly when it is a member
    of the allow-list or contains the built-in domain ".k8s.io" somewhere;
    the descriptor the discovery loop installs for a resource of a
    standard group-version has the categories discovery reported, and for
    any other group-version those categories followed by "crd"; a
    deny-listed identifier is skipped. *)
Theorem isStandardGroup_classification (gv : string) (m : ResourceMetas)
    (res : metav1.APIResource) :
  (isStandardGroup gv = true <->
   gv ∈ stdGroups \/ exists pre post, gv = pre +:+ ".k8s.io" +:+ post) /\
  exists d,
    metav1.Categories d
      = (if isStandardGroup gv then metav1.Categories res
         else metav1.Categories res ++ [crdCat]) /\
    loadPreferredResource gv m res
      = (if isDeprecated (client.FromGVAndR gv (metav1.Name res)) then m
         else <[client.FromGVAndR gv (metav1.Name res) := d]> m).
Proof.
  split.
  - unfold isStandardGroup. by rewrite orb_true_iff, Has_true, Contains_spec.
  - unfold loadPreferredResource. cbv zeta.
    destruct (isDeprecated _).
    + exists (metav1.withCategories res
                (if isStandardGroup gv then metav1.Categories res
                 else metav1.Categories res ++ [crdCat])).
      by split.
    + eexists. split; [|reflexivity].
      destruct (isStandardGroup gv); simpl;
        by destruct (String.eqb _ _).
Qed.

(** C2, as stated, fails on the group-version of the custom resource
    definitions themselves: it is standard for the code, and neither on the
    allow-list nor ending with ".k8s.io". *)
Lemma isStandardGroup_suffix_counterexample :
  isStandardGroup "apiextensions.k8s.io/v1" = true /\
  ("apiextensions.k8s.io/v1" ∉ stdGroups) /\
  strings.HasSuffix "apiextensions.k8s.io/v1" ".k8s.io" = false /\
  (isStandardGroup "apiextensions.k8s.io/v1"
   <> isStandardGroup_spec "apiextensions.k8s.io/v1").
Proof.
  split; [by vm_compute|].
  split; [apply Has_false; by vm_compute|].
  split; [by vm_compute|].
  by vm_compute.
Qed.

Example isStandardGroup_inner_domain :
  isStandardGroup "metrics.k8s.io.example.com/v1" = true.
Proof. by vm_compute. Qed.

Example isStandardGroup_extension :
  isStandardGroup "example.com/v1" = false.
Proof. by vm_compute. Qed.

(** *** Accessor dispatch *)

(** C9: the dispatch returns no error, and the accessor it returns is the
    table entry of the identifier, or the generic [Scaler] when there is
    none, after [Init] with the given factory and identifier: it holds
    both. *)
Theorem AccessorFor_initialized (f : Factory) (id : client.GVR) :
  (AccessorFor f id).2 = None /\
  (AccessorFor f id).1 = Init (default (new proto.Scaler) (Accessors !! id)) f id /\
  factory (AccessorFor f id).1 = Some f /\
  gvr (AccessorFor f id).1 = Some id /\
  impl (AccessorFor f id).1
    = match Accessors !! id with
      | Some a => impl a
      | None => proto.Scaler
      end.
Proof.
  unfold AccessorFor. cbv zeta. cbn [fst snd].
  by destruct (Accessors !! id).
Qed.

Example AccessorFor_pods (f : Factory) :
  impl (AccessorFor f (client.NewGVR "v1/pods")).1 = proto.Pod.
Proof. vm_compute. reflexivity. Qed.

Example AccessorFor_widgets (f : Factory) :
  AccessorFor f (client.NewGVR "example.com/v1/widgets")
  = (mkAccessor proto.Scaler (Some f)
       (Some (client.mkGVR "example.com" "v1" "widgets")), None).
Proof. vm_compute. reflexivity. Qed.

(** *** The refresh on sample data *)

Example NewGVR_deployments :
  client.NewGVR "apps/v1/deployments" = client.mkGVR "apps" "v1" "deployments".
Proof. reflexivity. Qed.

Example FromGVAndR_pods :
  client.FromGVAndR "v1" "pods" = client.NewGVR "v1/pods".
Proof. reflexivity. Qed.

Example refresh_deployments :
  (LoadResources widgetsOnly cluster podsOnly).1 !! client.NewGVR "apps/v1/deployments"
  = Some (metav1.mkAPIResource "deployments" "deployment" true "apps" "v1"
            "Deployment" ["get"; "list"] [] []).
Proof. rewrite LoadResources_from_empty. vm_compute. reflexivity. Qed.


Example refresh_without_client :
  LoadResources widgetsOnly noClient podsOnly = (loadNonResource ∅, None).
Proof. rewrite LoadResources_from_empty. reflexivity. Qed.

Example refresh_size :
  size (LoadResources widgetsOnly cluster podsOnly).1 = 20.
Proof. rewrite LoadResources_from_empty. vm_compute. reflexivity. Qed.

(** C1, as stated, fails when the discovery handle cannot be obtained: the
    code leaves the catalog empty, the order of the specification leaves
    the synthetic descriptors in it. *)
Lemma LoadResources_order_counterexample :
  (LoadResources rejectAll noDiscovery ∅).1
  <> (LoadResources_spec_order rejectAll noDiscovery ∅).1.
Proof.
  intros H. apply (f_equal size) in H. by vm_compute in H.
Qed.

(** A discovery report that names a synthetic identifier. *)
Example synthetic_wins_collision :
  let f := mkFactory
             (Some (mkConnection true
                (inl (mkDiscovery
                   ([metav1.mkAPIResourceList EmptyString [resource "workloads" "Imposter"]],
                    None)))))
             noObjects in
  metav1.Kind <$> (LoadResources rejectAll f ∅).1 !! client.NewGVR "workloads"
    = Some "Workload" /\
  metav1.Kind <$> (LoadResources_spec_order rejectAll f ∅).1 !! client.NewGVR "workloads"
    = Some "Imposter".
Proof. by vm_compute. Qed.

Lemma LoadResources_disconnected_witness :
  connected offline = false /\
  (LoadResources widgetsOnly offline podsOnly).2 = None /\
  (LoadResources widgetsOnly offline podsOnly).1 = loadHelm (loadRBAC (loadK9s ∅)) /\
  dom (LoadResources widgetsOnly offline podsOnly).1 =
    list_to_set (client.NewGVR <$>
      [ "workloads"; "pulses"; "dir"; "xrays"; "references"; "aliases";
        "contexts"; "screendumps"; "benchmarks"; "portforwards"; "containers";
        "scans"; "rbac"; "policy"; "users"; "groups"; "helm"; "helm-history" ]) /\
  size (LoadResources widgetsOnly offline podsOnly).1 = 18 /\
  map_Forall (fun _ d => IsK8sMeta d = false)
             (LoadResources widgetsOnly offline podsOnly).1.
Proof.
  split; [reflexivity|].
  apply (LoadResources_disconnected widgetsOnly offline podsOnly). reflexivity.
Defined.

Lemma LoadResources_no_discovery_witness :
  Client noDiscovery
    = Some (mkConnection true (inr (ErrUpstream "no discovery cache"))) /\
  ConnectionOK (mkConnection true (inr (ErrUpstream "no discovery cache"))) = true /\
  CachedDiscovery (mkConnection true (inr (ErrUpstream "no discovery cache")))
    = inr (ErrUpstream "no discovery cache") /\
  (LoadResources widgetsOnly noDiscovery podsOnly).2
    = Some (ErrUpstream "no discovery cache") /\
  (LoadResources widgetsOnly noDiscovery podsOnly).1 = ∅ /\
  (forall id, MetaFor (LoadResources widgetsOnly noDiscovery podsOnly).1 id
              = (metav1.zero, Some (ErrNoResourceMeta id))) /\
  AllGVRs (LoadResources widgetsOnly noDiscovery podsOnly).1 = [] /\
  (forall entries gv kind,
     entries ≡ₚ map_to_list (LoadResources widgetsOnly noDiscovery podsOnly).1 ->
     GVK2GVRIn entries gv kind = (client.NoGVR, false, false)) /\
  (forall gv kind,
     GVK2GVR (LoadResources widgetsOnly noDiscovery podsOnly).1 gv kind
     = (client.NoGVR, false, false)).
Proof.
  do 3 (split; [reflexivity|]).
  apply (LoadResources_no_discovery widgetsOnly noDiscovery podsOnly
           (mkConnection true (inr (ErrUpstream "no discovery cache")))
           (ErrUpstream "no discovery cache")); reflexivity.
Defined.

Lemma deprecated_never_cataloged_witness :
  client.NewGVR "extensions/v1beta1/ingresses" ∈ deprecatedGVRs /\
  (LoadResources widgetsOnly cluster podsOnly).1
    !! client.NewGVR "extensions/v1beta1/ingresses" = None.
Proof.
  assert (Hin : client.NewGVR "extensions/v1beta1/ingresses" ∈ deprecatedGVRs).
  { unfold deprecatedGVRs. cbn [list_to_set]. apply elem_of_union_l.
    by apply elem_of_singleton. }
  split; [exact Hin|].
  exact (deprecated_never_cataloged widgetsOnly cluster podsOnly _ Hin).
Defined.

(** ** Further properties of the registry *)

(** *** Reading and writing the catalog *)

(** X1: a registered descriptor is what [MetaFor] returns for its
    identifier, the other identifiers are answered as before, a second
    registration under the same path replaces the first, and the
    identifier is enumerated by [AllGVRs]. *)
Theorem RegisterMeta_MetaFor (path : string) (res : metav1.APIResource)
    (m : ResourceMetas) :
  MetaFor (RegisterMeta path res m) (client.NewGVR path) = (res, None) /\
  (forall id, id <> client.NewGVR path ->
              MetaFor (RegisterMeta path res m) id = MetaFor m id) /\
  (forall res0, RegisterMeta path res (RegisterMeta path res0 m)
                = RegisterMeta path res m) /\
  client.NewGVR path ∈ AllGVRs (RegisterMeta path res m).
Proof.
  unfold RegisterMeta, MetaFor. split; [by rewrite lookup_insert_eq|].
  split; [intros id Hne; by rewrite lookup_insert_ne|].
  split; [intros res0; apply insert_insert_eq|].
  unfold AllGVRs. rewrite merge_sort_Permutation.
  apply list_elem_of_fmap. exists (client.NewGVR path, res).
  split; [done|]. apply elem_of_map_to_list, lookup_insert_eq.
Qed.

(** X2: [AllGVRs] lists every identifier of the catalog once: it has no
    duplicates, as many elements as the catalog has entries, and an
    identifier is in it exactly when [MetaFor] succeeds on it. *)
Theorem AllGVRs_enumerates (m : ResourceMetas) :
  NoDup (AllGVRs m) /\
  length (AllGVRs m) = size m /\
  forall id, id ∈ AllGVRs m <-> (MetaFor m id).2 = None.
Proof.
  unfold AllGVRs. split; [|split].
  - rewrite merge_sort_Permutation. apply NoDup_fst_map_to_list.
  - by rewrite merge_sort_Permutation, length_fmap, length_map_to_list.
  - intros id. rewrite merge_sort_Permutation, list_elem_of_fmap.
    unfold MetaFor. split.
    + intros [[id' d] [-> Hin]]. apply elem_of_map_to_list in Hin.
      simpl. by rewrite Hin.
    + destruct (m !! id) as [d|] eqn:Hd; [|done].
      intros _. exists (id, d). split; [done|]. by apply elem_of_map_to_list.
Qed.

Lemma GVK2GVRIn_found entries gv kind id ns :
  GVK2GVRIn entries gv kind = (id, ns, true) ->
  exists d, (id, d) ∈ entries /\
            schema.Group gv = metav1.Group d /\
            schema.Version gv = metav1.Version d /\
            kind = metav1.Kind d /\
            ns = metav1.Namespaced d.
Proof.
  induction entries as [|[id' d'] rest IH]; simpl; [done|].
  destruct (_ && _) eqn:Hm.
  - intros [= <- <-]. apply andb_true_iff in Hm as [Hm Hk].
    apply andb_true_iff in Hm as [Hg Hv].
    apply String.eqb_eq in Hg, Hv, Hk.
    exists d'. split; [by left | done].
  - intros (d & Hin & ?)%IH. exists d. split; [by right | done].
Qed.

Lemma GVK2GVRIn_none entries gv kind id ns :
  GVK2GVRIn entries gv kind = (id, ns, false) ->
  id = client.NoGVR /\ ns = false /\
  forall id' d, (id', d) ∈ entries ->
    ~ (schema.Group gv = metav1.Group d /\
       schema.Version gv = metav1.Version d /\
       kind = metav1.Kind d).
Proof.
  induction entries as [|[id' d'] rest IH]; simpl.
  - intros [= <- <-]. split; [done|]. split; [done|].
    intros ? ? Hin. by apply elem_of_nil in Hin.
  - destruct (_ && _) eqn:Hm; [done|].
    intros (-> & -> & Hrest)%IH. split; [done|]. split; [done|].
    intros id'' d [[= -> ->]|Hin]%elem_of_cons; [|by apply (Hrest id'' d)].
    intros (Hg & Hv & Hk).
    by rewrite Hg, Hv, Hk, !String.eqb_refl in Hm.
Qed.

(** X3: in whatever order the scan of [GVK2GVR] visits the store, a
    positive answer names an identifier of the catalog whose descriptor
    has the group, version and kind asked for, with its namespaced flag;
    a negative answer is [NoGVR] with a false flag, and is given only when
    no descriptor of the catalog has that group, version and kind. *)
Theorem GVK2GVR_correct (m : ResourceMetas)
    (entries : list (client.GVR * metav1.APIResource))
    (gv : schema.GroupVersion) (kind : string)
    (Horder : entries ≡ₚ map_to_list m) :
  match GVK2GVRIn entries gv kind with
  | (id, ns, true) =>
      exists d, m !! id = Some d /\
                schema.Group gv = metav1.Group d /\
                schema.Version gv = metav1.Version d /\
                kind = metav1.Kind d /\
                ns = metav1.Namespaced d
  | (id, ns, false) =>
      id = client.NoGVR /\ ns = false /\
      forall id' d, m !! id' = Some d ->
        ~ (schema.Group gv = metav1.Group d /\
           schema.Version gv = metav1.Version d /\
           kind = metav1.Kind d)
  end.
Proof.
  destruct (GVK2GVRIn entries gv kind) as [[id ns] [|]] eqn:Hscan.
  - apply GVK2GVRIn_found in Hscan as (d & Hin & ?).
    exists d. split; [|done]. apply elem_of_map_to_list. by rewrite <- Horder.
  - apply GVK2GVRIn_none in Hscan as (-> & -> & Hnone).
    split; [done|]. split; [done|].
    intros id' d Hd. apply (Hnone id' d).
    rewrite Horder. by apply elem_of_map_to_list.
Qed.

(** X4: when exactly one identifier of the catalog has a descriptor with
    the group, version and kind asked for, [GVK2GVR] answers with that
    identifier and its namespaced flag in every order of the scan. *)
Theorem GVK2GVR_unique (m : ResourceMetas)
    (entries : list (client.GVR * metav1.APIResource))
    (gv : schema.GroupVersion) (kind : string)
    (id : client.GVR) (d : metav1.APIResource)
    (Horder : entries ≡ₚ map_to_list m)
    (Hd : m !! id = Some d)
    (Hmatch : schema.Group gv = metav1.Group d /\
              schema.Version gv = metav1.Version d /\
              kind = metav1.Kind d)
    (Honly : forall id' d',
        m !! id' = Some d' ->
        schema.Group gv = metav1.Group d' /\
        schema.Version gv = metav1.Version d' /\
        kind = metav1.Kind d' -> id' = id) :
  GVK2GVRIn entries gv kind = (id, metav1.Namespaced d, true).
Proof.
  destruct (GVK2GVRIn entries gv kind) as [[id' ns] [|]] eqn:Hscan.
  - apply GVK2GVRIn_found in Hscan as (d' & Hin & Hg & Hv & Hk & ->).
    rewrite Horder in Hin. apply elem_of_map_to_list in Hin.
    assert (id' = id) as -> by (by eapply Honly).
    rewrite Hd in Hin. by injection Hin as <-.
  - apply GVK2GVRIn_none in Hscan as (_ & _ & Hnone).
    exfalso. apply (Hnone id d); [|done].
    rewrite Horder. by apply elem_of_map_to_list.
Qed.

(** *** Live discovery *)


Lemma loadPreferredResource_dom gv (m : ResourceMetas) res id :
  id ∈ dom (loadPreferredResource gv m res) <->
  id ∈ dom m \/
  (id = client.FromGVAndR gv (metav1.Name res) /\ isDeprecated id = false).
Proof.
  unfold loadPreferredResource. cbv zeta.
  destruct (isDeprecated (client.FromGVAndR gv (metav1.Name res))) eqn:Hdep.
  - split; [by left|]. intros [?|[-> Hno]]; [done | congruence].
  - rewrite dom_insert_L, elem_of_union, elem_of_singleton. split.
    + intros [->|?]; [by right | by left].
    + intros [?|[-> _]]; [by right | by left].
Qed.


Lemma foldl_loadPreferredList_dom rr (m : ResourceMetas) id :
  id ∈ dom (foldl loadPreferredList m rr) <->
  id ∈ dom m \/
  exists rl res, reported rr rl res /\
                 id = client.FromGVAndR (metav1.GroupVersion rl) (metav1.Name res) /\
                 isDeprecated id = false.
Proof.
  revert m. induction rr as [|rl rr IH]; intros m; simpl.
  - split; [by left|]. intros [?|(rl & res & [Hrl _] & _)]; [done|].
    by apply elem_of_nil in Hrl.
  - assert (Hlist : forall l m0,
               id ∈ dom (foldl (loadPreferredResource (metav1.GroupVersion rl)) m0 l)
               <-> id ∈ dom m0 \/
                   exists res, res ∈ l /\
                     id = client.FromGVAndR (metav1.GroupVersion rl) (metav1.Name res) /\
                     isDeprecated id = false).
    { induction l as [|res l IHl]; intros m0; simpl.
      - split; [by left|]. intros [?|(res & Hres & _)]; [done|].
        by apply elem_of_nil in Hres.
      - rewrite IHl, loadPreferredResource_dom. split.
        + intros [[?|?]|(res' & ? & ?)]; [by left| |].
          * right. exists res. split; [by left | done].
          * right. exists res'. split; [by right | done].
        + intros [?|(res' & [->|?]%elem_of_cons & ?)].
          * by left; left.
          * by left; right.
          * right. by exists res'. }
    rewrite IH. unfold loadPreferredList. rewrite Hlist. split.
    + intros [[?|(res & ? & ?)]|(rl' & res & [? ?] & ?)]; [by left| |].
      * right. exists rl, res. split; [|done]. split; [by left | done].
      * right. exists rl', res. split; [|done]. split; [by right | done].
    + intros [?|(rl' & res & [[->|?]%elem_of_cons ?] & ?)].
      * by left; left.
      * left. right. by exists res.
      * right. exists rl', res. by split.
Qed.



Section RefreshFacts.

Variable conv : gmap string Value -> apiext.CustomResourceDefinition + Error.

(** X6: after a refresh with the connection up and the discovery handle
    at hand, the identifiers of the catalog are those of the synthetic
    table and those of the reported resources that are not deny-listed,
    and no others; an error of the discovery query changes nothing to
    that. *)
Theorem LoadResources_identifiers (f : Factory) (m : ResourceMetas)
    (c : Connection) (dial : Discovery)
    (Hclient : Client f = Some c) (Hup : ConnectionOK c = true)
    (Hdial : CachedDiscovery c = inl dial) (id : client.GVR) :
  id ∈ dom (LoadResources conv f m).1 <->
  id ∈ dom (loadNonResource ∅) \/
  exists rl res,
    reported (ServerPreferredResources dial).1 rl res /\
    id = client.FromGVAndR (metav1.GroupVersion rl) (metav1.Name res) /\
    isDeprecated id = false.
Proof.
  unfold LoadResources, loadPreferred.
  rewrite clear_empty, Hclient, Hup, Hdial. simpl.
  destruct (ServerPreferredResources dial) as [rr qerr]. simpl.
  rewrite loadCRDs_dom, loadNonResource_union, dom_union_L, elem_of_union.
  rewrite foldl_loadPreferredList_dom, dom_empty_L.
  split.
  - intros [?|[Hin|?]]; [by left | by apply not_elem_of_empty in Hin | by right].
  - intros [?|?]; [by left | by right; right].
Qed.

(** X7: the only error a refresh returns is that of the discovery handle,
    asked for when the connection is up; an error of the discovery query,
    of the listing of the definitions or of a conversion never fails the
    refresh. *)
Theorem LoadResources_error (f : Factory) (m : ResourceMetas) :
  (LoadResources conv f m).2
  = match Client f with
    | Some c =>
        if ConnectionOK c
        then match CachedDiscovery c with
             | inr err => Some err
             | inl _ => None
             end
        else None
    | None => None
    end.
Proof.
  unfold LoadResources, loadPreferred.
  destruct (Client f) as [c|]; [|done].
  destruct (ConnectionOK c); simpl; [|done].
  destruct (CachedDiscovery c) as [dial|e]; [|done].
  by destruct (ServerPreferredResources dial).
Qed.

End RefreshFacts.

(** *** More on the extension-type pass *)

Section AugmentationFacts.

Variable conv : gmap string Value -> apiext.CustomResourceDefinition + Error.

Lemma loadCRD_target (m : ResourceMetas) (o : unstructured.Unstructured) :
  loadCRD conv m o
  = match scaleTarget conv o with
    | Some id =>
        match m !! id with
        | Some meta => if IsScalable meta then m else <[id := addScale meta]> m
        | None => m
        end
    | None => m
    end.
Proof.
  unfold loadCRD, scaleTarget.
  destruct (conv (unstructured.Object o)) as [crd|]; [|done].
  destruct (newGVRFromCRD crd) as [[id ver] [|]]; simpl; [|done].
  destruct (declaresScale ver); simpl.
  - destruct (m !! id) as [meta|]; [|done].
    unfold IsScalable. by destruct (slices.Contains _ _).
  - by destruct (m !! id).
Qed.

Lemma loadCRD_no_target (m : ResourceMetas) (o : unstructured.Unstructured) :
  scaleTarget conv o = None -> loadCRD conv m o = m.
Proof. intros H. by rewrite loadCRD_target, H. Qed.

Lemma augmentedBy_scalable oo id d d' :
  augmentedBy conv oo id d d' -> IsScalable d = true -> IsScalable d' = true.
Proof. intros [->|(Hno & _)]; [done | congruence]. Qed.

Lemma foldl_loadCRD_scalable oo (m : ResourceMetas) o id :
  o ∈ oo -> scaleTarget conv o = Some id -> is_Some (m !! id) ->
  exists d', foldl (loadCRD conv) m oo !! id = Some d' /\ IsScalable d' = true.
Proof.
  revert m. induction oo as [|o0 oo IH]; intros m Hin Ht [d Hd]; simpl.
  { by apply elem_of_nil in Hin. }
  apply elem_of_cons in Hin as [->|Hin].
  - assert (Hstep : exists d1, loadCRD conv m o0 !! id = Some d1
                               /\ IsScalable d1 = true).
    { rewrite loadCRD_target, Ht, Hd.
      destruct (IsScalable d) eqn:Hs; [by exists d|].
      exists (addScale d). by rewrite lookup_insert_eq, IsScalable_addScale. }
    destruct Hstep as (d1 & Hd1 & Hs1).
    pose proof (foldl_loadCRD_lookup conv oo (loadCRD conv m o0) id) as Hrest.
    rewrite Hd1 in Hrest. inversion Hrest as [? d2 Haug|]; subst.
    exists d2. split; [done|]. by eapply augmentedBy_scalable.
  - apply IH; [done..|].
    pose proof (loadCRD_lookup conv m o0 id) as Hstep.
    rewrite Hd in Hstep. by inversion Hstep.
Qed.

Lemma foldl_loadCRD_fixed oo (m : ResourceMetas) :
  (forall o, o ∈ oo -> loadCRD conv m o = m) -> foldl (loadCRD conv) m oo = m.
Proof.
  induction oo as [|o oo IH]; simpl; [done|]. intros Hfix.
  rewrite (Hfix o) by by left. apply IH. intros o' Ho'. apply Hfix. by right.
Qed.

Lemma foldl_loadCRD_filter oo (m : ResourceMetas) :
  foldl (loadCRD conv) m oo
  = foldl (loadCRD conv) m (filter (fun o => is_Some (scaleTarget conv o)) oo).
Proof.
  revert m. induction oo as [|o oo IH]; intros m; [done|].
  rewrite filter_cons. simpl. case_decide as Ho; simpl.
  - apply IH.
  - rewrite loadCRD_no_target; [apply IH|].
    destruct (scaleTarget conv o) eqn:Ht; [|done]. by destruct Ho.
Qed.

(** X8: the extension-type pass is deaf to the objects it cannot use: an
    object that fails conversion, has no served and non-deprecated
    version, or whose authoritative version declares no scale subresource
    leaves no trace, and the other objects are processed as if it were not
    listed. *)
Theorem loadCRDs_skips_unusable (f : Factory) (m : ResourceMetas) :
  loadCRDs conv f m = loadCRDs conv (onlyScaleTargets conv f) m.
Proof.
  unfold loadCRDs, onlyScaleTargets, connected. simpl.
  destruct (match Client f with Some c => ConnectionOK c | None => false end);
    simpl; [|done].
  destruct (List f crdGVR client.ClusterScope true labels.Everything)
    as [oo [err|]]; [done|].
  apply foldl_loadCRD_filter.
Qed.

(** X9: after the extension-type pass over a listing obtained without
    error on a live connection, every cataloged identifier that a listed
    definition names with an authoritative version declaring a scale
    subresource is scalable. *)
Theorem loadCRDs_marks_scalable (f : Factory) (m : ResourceMetas)
    (oo : list unstructured.Unstructured) (o : unstructured.Unstructured)
    (id : client.GVR)
    (Hup : connected f = true)
    (Hlist : List f crdGVR client.ClusterScope true labels.Everything = (oo, None))
    (Ho : o ∈ oo) (Htarget : scaleTarget conv o = Some id)
    (Hknown : is_Some (m !! id)) :
  exists d', loadCRDs conv f m !! id = Some d' /\ IsScalable d' = true.
Proof.
  unfold loadCRDs. rewrite Hup, Hlist. simpl.
  by eapply foldl_loadCRD_scalable.
Qed.

(** X10: running the extension-type pass a second time over the same
    listing changes nothing. *)
Theorem loadCRDs_idempotent (f : Factory) (m : ResourceMetas) :
  loadCRDs conv f (loadCRDs conv f m) = loadCRDs conv f m.
Proof.
  unfold loadCRDs. destruct (connected f); simpl; [|done].
  destruct (List f crdGVR client.ClusterScope true labels.Everything)
    as [oo [err|]]; [done|].
  apply foldl_loadCRD_fixed. intros o Ho.
  rewrite loadCRD_target.
  destruct (scaleTarget conv o) as [id|] eqn:Ht; [|done].
  destruct (foldl (loadCRD conv) m oo !! id) as [d'|] eqn:Hd'; [|done].
  assert (Hknown : is_Some (m !! id)).
  { pose proof (foldl_loadCRD_lookup conv oo m id) as H.
    rewrite Hd' in H. inversion H. by eexists. }
  destruct (foldl_loadCRD_scalable oo m o id Ho Ht Hknown) as (d2 & Hd2 & Hs).
  rewrite Hd' in Hd2. injection Hd2 as <-. by rewrite Hs.
Qed.

Lemma sameClass_refl d : sameClass d d.
Proof. by repeat split. Qed.

Lemma sameClass_addScale d : sameClass d (addScale d).
Proof.
  unfold sameClass, addScale, IsCRD, IsK8sMeta, IsK9sMeta, slices.Contains.
  cbn [metav1.Name metav1.SingularName metav1.Namespaced metav1.Group
       metav1.Version metav1.Kind metav1.Verbs metav1.ShortNames
       metav1.Categories metav1.withCategories].
  do 8 (split; [done|]).
  split; [intros c Hc; apply elem_of_app; by left|].
  rewrite !existsb_app. cbn [existsb]. vm_compute (String.eqb _ scaleCat).
  vm_compute (String.eqb scaleCat _).
  by rewrite !orb_false_r.
Qed.

(** X11: the extension-type pass changes the classification of no entry:
    a descriptor keeps its name, kind, group, version, scope, verbs and
    short names, loses no category, and is a CRD, a cluster type or a
    tool-internal type after the pass exactly when it was before. *)
Theorem loadCRDs_keeps_classification (f : Factory) (m : ResourceMetas)
    (id : client.GVR) :
  option_Forall2 sameClass (m !! id) (loadCRDs conv f m !! id).
Proof.
  destruct (loadCRDs_lookup conv f m id) as [d d' Haug|]; constructor.
  destruct Haug as [->|(_ & -> & _)];
    [apply sameClass_refl | apply sameClass_addScale].
Qed.

End AugmentationFacts.

(** *** The refresh as a whole *)

Lemma loadNonResource_tool_internal :
  map_Forall (fun _ d => IsK8sMeta d = false) (loadNonResource ∅).
Proof.
  unfold loadNonResource, loadHelm, loadRBAC, loadK9s. cbv zeta.
  repeat (apply map_Forall_insert_2; [reflexivity|]).
  apply map_Forall_empty.
Qed.

Section RefreshProvenance.

Variable conv : gmap string Value -> apiext.CustomResourceDefinition + Error.

(** X12: a refresh that returns no error leaves every synthetic
    identifier in the catalog, with the descriptor of the synthetic table
    up to an added "scale" category, whatever discovery reported under
    that identifier; the entry is never classified as a cluster type. *)
Theorem LoadResources_keeps_synthetics (f : Factory) (m : ResourceMetas)
    (id : client.GVR)
    (Hok : (LoadResources conv f m).2 = None)
    (Hsyn : id ∈ dom (loadNonResource ∅)) :
  exists d d',
    loadNonResource ∅ !! id = Some d /\
    (LoadResources conv f m).1 !! id = Some d' /\
    (d' = d \/ d' = addScale d) /\
    IsK8sMeta d' = false.
Proof.
  apply elem_of_dom in Hsyn as [d Hd].
  revert Hok. unfold LoadResources. rewrite clear_empty.
  destruct (loadPreferred f ∅) as [live [err|]]; simpl; [done|]. intros _.
  pose proof (loadCRDs_lookup conv f (loadNonResource live) id) as Haug.
  rewrite loadNonResource_union, lookup_union_l' in Haug by by eexists.
  rewrite Hd in Haug. inversion Haug as [? d' Hdd' Heq1 Heq2|]; subst.
  exists d, d'. split; [done|]. rewrite loadNonResource_union. split; [done|].
  pose proof (loadNonResource_tool_internal id d Hd) as Hk. simpl in Hk.
  destruct Hdd' as [->|(_ & -> & _)].
  - split; [by left | done].
  - split; [by right|].
    destruct (sameClass_addScale d) as (_&_&_&_&_&_&_&_&_&_&Hk8&_).
    by rewrite Hk8.
Qed.


End RefreshProvenance.

(** *** More on the weakly-typed extractor *)

Lemma extractMeta_unstructured (crd : unstructured.Unstructured) :
  extractMeta (runtime.OfUnstructured crd)
  = (partialMeta (unstructured.Object crd), fieldErrors (unstructured.Object crd)).
Proof.
  unfold extractMeta, partialMeta, fieldErrors. cbv zeta.
  repeat (rewrite ?extractMap_eq, ?extractStr_eq, ?extractSlice_eq;
          cbv beta iota).
  generalize (unstructured.Object crd). intros obj.
  generalize (strs (field obj "spec") "versions"),
             (strs (field (field obj "spec") "names") "shortNames"),
             (str (field obj "metadata") "name"),
             (str (field obj "spec") "group"),
             (str (field obj "spec") "scope"),
             (str (field (field obj "spec") "names") "kind"),
             (str (field (field obj "spec") "names") "singular"),
             (str (field (field obj "spec") "names") "plural").
  intros versions shortNames name group scope kind singular plural.
  rewrite app_nil_l, <- !app_assoc.
  f_equal. by destruct versions.
Qed.

Lemma strErrs_nil (m : gmap string Value) (n : string) :
  strErrs m n = [] <-> isStr m n = true.
Proof. unfold strErrs, isStr. by destruct (index m n). Qed.

Lemma mapErrs_nil (m : gmap string Value) (n : string) :
  mapErrs m n = [] <-> isMap m n = true.
Proof. unfold mapErrs, isMap. by destruct (index m n). Qed.

Lemma elemErrs_nil (n : string) (e : Value) :
  elemErrs n e = [] <-> bool_decide (is_Some (elemName e)) = true.
Proof.
  destruct e as [| s | l | l | o | t]; simpl; try done.
  by destruct (index o "name").
Qed.

Lemma sliceErrs_nil (m : gmap string Value) (n : string) :
  sliceErrs m n = [] <-> listOK m n = true.
Proof.
  unfold sliceErrs, listOK. destruct (index m n) as [| s | l | ii | o | t]; try done.
  induction ii as [|e ii IH]; simpl; [done|].
  by rewrite app_nil, andb_true_iff, elemErrs_nil, IH.
Qed.

Lemma names_and_errors (n : string) (ii : list Value) :
  length (omap elemName ii) + length (flat_map (elemErrs n) ii) = length ii.
Proof.
  induction ii as [|e ii IH]; simpl; [done|].
  rewrite length_app, elemErrs_length.
  destruct (elemName e) as [s|] eqn:He; simpl; change (list_omap _ _ elemName ii)
    with (omap elemName ii); lia.
Qed.

(** X14: [extractSlice] on a sequence accounts for every element: each
    one gives either a name or an error, so the names returned and the
    errors added number as many as the elements, and the errors collected
    before come first in the list returned. *)
Theorem extractSlice_accounts (m : gmap string Value) (n : string)
    (errs : list Error) (ii : list Value)
    (Hseq : index m n = VSlice ii) :
  length (extractSlice m n errs).1 + length (extractSlice m n errs).2
    = length ii + length errs /\
  errs `prefix_of` (extractSlice m n errs).2.
Proof.
  rewrite extractSlice_eq. unfold strs, sliceErrs. rewrite Hseq. simpl.
  split; [|by apply prefix_app_r].
  rewrite length_app. pose proof (names_and_errors n ii). lia.
Qed.

Lemma fieldErrors_nil (obj : gmap string Value) :
  fieldErrors obj = [] <-> wellFormed obj = true.
Proof.
  unfold fieldErrors, wellFormed. cbv zeta.
  rewrite !app_nil, !andb_true_iff, !strErrs_nil, !mapErrs_nil, !sliceErrs_nil.
  tauto.
Qed.

(** X15: the extractor returns no error exactly on an unstructured object
    whose probed fields are all in order: the string and map fields
    present with their type, the list-valued fields absent, a []string or
    a sequence of elements that each stand for a name. *)
Theorem extractMeta_no_error (o : runtime.Object) :
  (extractMeta o).2 = [] <->
  exists crd, o = runtime.OfUnstructured crd /\
              wellFormed (unstructured.Object crd) = true.
Proof.
  destruct o as [crd|t].
  - rewrite extractMeta_unstructured. cbn [snd]. rewrite fieldErrors_nil.
    split.
    + intros H. by exists crd.
    + by intros (crd' & [= <-] & H).
  - split; [done|]. by intros (crd & ? & _).
Qed.

(** *** Classification predicates *)

Lemma existsb_eqb_elem (l : list string) (x : string) :
  existsb (String.eqb x) l = bool_decide (x ∈ l).
Proof.
  induction l as [|y l IH]; simpl; [done|]. rewrite IH.
  destruct (String.eqb_spec x y) as [->|Hne].
  - symmetry. apply bool_decide_eq_true_2. by left.
  - simpl. apply bool_decide_ext. rewrite elem_of_cons.
    split; [by right | by intros [?|?]].
Qed.

(** X16: a descriptor is a cluster type for [IsK8sMeta] exactly when it
    has neither the "k9s" nor the "helm" category; a tool-internal
    descriptor ([IsK9sMeta]) is never a cluster type. *)
Theorem IsK8sMeta_categories (d : metav1.APIResource) :
  (IsK8sMeta d = true <->
   (k9sCat ∉ metav1.Categories d) /\ (helmCat ∉ metav1.Categories d)) /\
  (IsK9sMeta d = true -> IsK8sMeta d = false).
Proof.
  assert (Hiff : IsK8sMeta d = true <->
                 (k9sCat ∉ metav1.Categories d) /\
                 (helmCat ∉ metav1.Categories d)).
  { unfold IsK8sMeta. rewrite negb_true_iff.
    induction (metav1.Categories d) as [|c l IH]; simpl.
    - split; [|done]. intros _. split; apply not_elem_of_nil.
    - rewrite orb_false_iff, IH, !not_elem_of_cons, !orb_false_iff.
      rewrite !String.eqb_neq.
      split; [intros ([? ?] & ? & ?) | intros ([? ?] & ? & ?)];
        repeat split; congruence. }
  split; [done|].
  unfold IsK9sMeta, slices.Contains. rewrite existsb_eqb_elem.
  intros Hk%bool_decide_eq_true. apply not_true_is_false.
  rewrite Hiff. intros [Hno _]. done.
Qed.

(** *** Clearing *)

(** X17: [clear] leaves nothing behind, whatever the store held: no
    identifier is enumerated, every lookup fails with the identifier asked
    for, and no group, version and kind resolves. *)
Theorem clear_forgets (m : ResourceMetas) :
  AllGVRs (clear m) = [] /\
  (forall id, MetaFor (clear m) id = (metav1.zero, Some (ErrNoResourceMeta id))) /\
  (forall gv kind, GVK2GVR (clear m) gv kind = (client.NoGVR, false, false)).
Proof.
  rewrite clear_empty. unfold AllGVRs, MetaFor, GVK2GVR.
  rewrite map_to_list_empty. split; [done|]. split; [|done].
  intros id. by rewrite lookup_empty.
Qed.

(** *** Accessor dispatch, once more *)

Lemma foldl_insert_Forall (P : Accessor -> Prop)
    (entries : list (client.GVR * Accessor)) (m : gmap client.GVR Accessor) :
  map_Forall (fun _ a => P a) m -> Forall (fun kv => P kv.2) entries ->
  map_Forall (fun _ a => P a) (foldl (fun m kv => <[kv.1 := kv.2]> m) m entries).
Proof.
  revert m. induction entries as [|kv entries IH]; intros m Hm Hall; simpl; [done|].
  inversion Hall; subst. apply IH; [|done]. by apply map_Forall_insert_2.
Qed.

(** X18: the generic accessor is handed out exactly for the identifiers
    that have no entry in the dispatch table: no entry of the table is the
    generic one. *)
Theorem AccessorFor_generic (f : Factory) (id : client.GVR) :
  impl (AccessorFor f id).1 = proto.Scaler <-> Accessors !! id = None.
Proof.
  assert (Htable : map_Forall (fun _ a => impl a <> proto.Scaler) Accessors).
  { unfold Accessors. apply foldl_insert_Forall; [apply map_Forall_empty|].
    unfold accessorEntries. repeat constructor; discriminate. }
  unfold AccessorFor. cbv zeta. cbn [fst].
  destruct (Accessors !! id) as [a|] eqn:Ha; simpl; [|done].
  split; [|done]. intros Himpl. by destruct (Htable id a Ha).
Qed.

(** *** The further properties on sample data *)

Lemma GVK2GVR_correct_witness :
  map_to_list podsOnly ≡ₚ map_to_list podsOnly /\
  match GVK2GVRIn (map_to_list podsOnly)
                  (schema.mkGroupVersion EmptyString EmptyString) "Pod" with
  | (id, ns, true) =>
      exists d, podsOnly !! id = Some d /\
                schema.Group (schema.mkGroupVersion EmptyString EmptyString)
                  = metav1.Group d /\
                schema.Version (schema.mkGroupVersion EmptyString EmptyString)
                  = metav1.Version d /\
                "Pod" = metav1.Kind d /\
                ns = metav1.Namespaced d
  | (id, ns, false) =>
      id = client.NoGVR /\ ns = false /\
      forall id' d, podsOnly !! id' = Some d ->
        ~ (schema.Group (schema.mkGroupVersion EmptyString EmptyString)
             = metav1.Group d /\
           schema.Version (schema.mkGroupVersion EmptyString EmptyString)
             = metav1.Version d /\
           "Pod" = metav1.Kind d)
  end.
Proof.
  split; [reflexivity|].
  apply (GVK2GVR_correct podsOnly (map_to_list podsOnly)
           (schema.mkGroupVersion EmptyString EmptyString) "Pod").
  reflexivity.
Defined.

Lemma podsOnly_single (id : client.GVR) (d : metav1.APIResource) :
  podsOnly !! id = Some d ->
  id = client.NewGVR "v1/pods" /\ d = resource "pods" "Pod".
Proof.
  unfold podsOnly. intros [[<- <-]|[_ H]]%lookup_insert_Some; [done|].
  by rewrite lookup_empty in H.
Qed.

Lemma GVK2GVR_unique_witness :
  map_to_list podsOnly ≡ₚ map_to_list podsOnly /\
  podsOnly !! client.NewGVR "v1/pods" = Some (resource "pods" "Pod") /\
  GVK2GVRIn (map_to_list podsOnly)
            (schema.mkGroupVersion EmptyString EmptyString) "Pod"
  = (client.NewGVR "v1/pods", true, true).
Proof.
  split; [reflexivity|].
  split; [apply lookup_insert_eq|].
  apply (GVK2GVR_unique podsOnly (map_to_list podsOnly)
           (schema.mkGroupVersion EmptyString EmptyString) "Pod"
           (client.NewGVR "v1/pods") (resource "pods" "Pod")).
  - reflexivity.
  - apply lookup_insert_eq.
  - repeat split; reflexivity.
  - intros id' d' Hd' _. by apply podsOnly_single in Hd' as [-> _].
Defined.


Lemma LoadResources_identifiers_witness :
  Client cluster = Some clusterConnection /\
  ConnectionOK clusterConnection = true /\
  CachedDiscovery clusterConnection = inl clusterDiscovery /\
  (client.NewGVR "example.com/v1/widgets"
     ∈ dom (LoadResources widgetsOnly cluster podsOnly).1 <->
   client.NewGVR "example.com/v1/widgets" ∈ dom (loadNonResource ∅) \/
   exists rl res,
     reported (ServerPreferredResources clusterDiscovery).1 rl res /\
     client.NewGVR "example.com/v1/widgets"
       = client.FromGVAndR (metav1.GroupVersion rl) (metav1.Name res) /\
     isDeprecated (client.NewGVR "example.com/v1/widgets") = false).
Proof.
  do 3 (split; [reflexivity|]).
  apply (LoadResources_identifiers widgetsOnly cluster podsOnly
           clusterConnection clusterDiscovery); reflexivity.
Defined.

Lemma loadCRDs_marks_scalable_witness :
  connected cluster = true /\
  List cluster crdGVR client.ClusterScope true labels.Everything
    = ([widgetObject], None) /\
  widgetObject ∈ [widgetObject] /\
  scaleTarget widgetsOnly widgetObject
    = Some (client.NewGVR "example.com/v1/widgets") /\
  is_Some (widgetsOnlyCatalog !! client.NewGVR "example.com/v1/widgets") /\
  exists d', loadCRDs widgetsOnly cluster widgetsOnlyCatalog
               !! client.NewGVR "example.com/v1/widgets" = Some d' /\
             IsScalable d' = true.
Proof.
  assert (Hin : widgetObject ∈ [widgetObject]) by (by left).
  assert (Hknown : is_Some (widgetsOnlyCatalog
                              !! client.NewGVR "example.com/v1/widgets")).
  { eexists. apply lookup_insert_eq. }
  split; [reflexivity|]. split; [reflexivity|]. split; [exact Hin|].
  split; [reflexivity|]. split; [exact Hknown|].
  apply (loadCRDs_marks_scalable widgetsOnly cluster widgetsOnlyCatalog
           [widgetObject] widgetObject (client.NewGVR "example.com/v1/widgets"));
    [reflexivity | reflexivity | exact Hin | reflexivity | exact Hknown].
Defined.

Lemma LoadResources_keeps_synthetics_witness :
  (LoadResources widgetsOnly cluster podsOnly).2 = None /\
  client.NewGVR "workloads" ∈ dom (loadNonResource ∅) /\
  exists d d',
    loadNonResource ∅ !! client.NewGVR "workloads" = Some d /\
    (LoadResources widgetsOnly cluster podsOnly).1 !! client.NewGVR "workloads"
      = Some d' /\
    (d' = d \/ d' = addScale d) /\
    IsK8sMeta d' = false.
Proof.
  assert (Hok : (LoadResources widgetsOnly cluster podsOnly).2 = None).
  { rewrite LoadResources_from_empty. reflexivity. }
  assert (Hsyn : client.NewGVR "workloads" ∈ dom (loadNonResource ∅)).
  { apply elem_of_dom. eexists. vm_compute. reflexivity. }
  split; [exact Hok|]. split; [exact Hsyn|].
  exact (LoadResources_keeps_synthetics widgetsOnly cluster podsOnly _ Hok Hsyn).
Defined.


Lemma extractSlice_accounts_witness :
  index mixedVersions "versions"
    = VSlice [ VStr "v1"; VOther "int"; VMap (<["name" := VStr "v2"]> ∅) ] /\
  length (extractSlice mixedVersions "versions" []).1
    + length (extractSlice mixedVersions "versions" []).2
    = length [ VStr "v1"; VOther "int"; VMap (<["name" := VStr "v2"]> ∅) ]
      + length ([] : list Error) /\
  [] `prefix_of` (extractSlice mixedVersions "versions" []).2.
Proof.
  assert (H : index mixedVersions "versions"
              = VSlice [ VStr "v1"; VOther "int";
                         VMap (<["name" := VStr "v2"]> ∅) ]).
  { vm_compute. reflexivity. }
  split; [exact H|].
  exact (extractSlice_accounts mixedVersions "versions" [] _ H).
Defined.
